(** * GeMS_DMUtoDocx_AGP2: the DMU-table to Word translation

    A shallow embedding of [Scripts/GeMS_DMUtoDocx_AGP2.py]: the Python
    string primitives the script relies on, the run builder
    [add_formatting], the paragraph splitter of the unit branch and the
    module-level record loop, followed by the properties of the
    natural-language specification that are stated about them. *)

From Stdlib Require Import String Ascii.
From Stdlib Require Import List ZArith NArith Lia Bool Permutation Sorted.
Import ListNotations.

Local Open Scope Z_scope.

(** ** Python values *)

(** A Python [str] is a sequence of Unicode code points. *)
Definition char := N.
Definition text := list char.

(** The code points of an ASCII literal of the script. *)
Definition py (s : string) : text := map N_of_ascii (list_ascii_of_string s).

Definition len (s : text) : Z := Z.of_nat (length s).

Module Py.

Fixpoint text_eqb (a b : text) : bool :=
  match a, b with
  | [], [] => true
  | x :: a', y :: b' => N.eqb x y && text_eqb a' b'
  | _, _ => false
  end.

(** [a < b] on [str]: lexicographic on code points. *)
Fixpoint text_ltb (a b : text) : bool :=
  match a, b with
  | _, [] => false
  | [], _ :: _ => true
  | x :: a', y :: b' => N.ltb x y || (N.eqb x y && text_ltb a' b')
  end.

(** [s.startswith(pat)]. *)
Fixpoint starts_with (pat s : text) : bool :=
  match pat, s with
  | [], _ => true
  | _ :: _, [] => false
  | x :: pat', y :: s' => N.eqb x y && starts_with pat' s'
  end.

(** Index clamping of slices and of [find]'s start argument. *)
Definition clamp (n i : Z) : Z :=
  if i <? 0 then Z.max 0 (i + n) else Z.min i n.

(** [s[a:b]]. *)
Definition slice (s : text) (a b : Z) : text :=
  let a' := clamp (len s) a in
  let b' := clamp (len s) b in
  firstn (Z.to_nat (b' - a')) (skipn (Z.to_nat a') s).

(** [s[-1:]]. *)
Definition last_char (s : text) : text :=
  skipn (Z.to_nat (clamp (len s) (-1))) s.

(** First index, counted from [i], at which [sub] occurs in [s]; -1 when
    there is none. *)
Fixpoint find_at (sub s : text) (i : Z) : Z :=
  if starts_with sub s then i
  else match s with
       | [] => -1
       | _ :: s' => find_at sub s' (i + 1)
       end.

(** [s.find(sub, start)]. *)
Definition find (s sub : text) (start : Z) : Z :=
  let st := if start <? 0 then Z.max 0 (start + len s) else start in
  if len s <? st then -1
  else find_at sub (skipn (Z.to_nat st) s) st.

(** [sub in s]. *)
Definition contains (sub s : text) : bool :=
  negb (find_at sub s 0 =? -1).

(** [m.start() for m in re.finditer(pat, s)] for a pattern that is a
    non-empty literal: the non-overlapping occurrences, left to right.
    [skip] counts the characters of the last match still to be passed. *)
Fixpoint finditer_aux (pat : text) (skip : nat) (s : text) (i : Z) : list Z :=
  match s with
  | [] => []
  | _ :: s' =>
      match skip with
      | S k => finditer_aux pat k s' (i + 1)
      | O =>
          if starts_with pat s
          then i :: finditer_aux pat (length pat - 1) s' (i + 1)
          else finditer_aux pat 0 s' (i + 1)
      end
  end.

Definition finditer (pat s : text) : list Z := finditer_aux pat 0 s 0.

(** [s.split(sep)] for a non-empty separator. [cur] holds the current
    piece reversed. *)
Fixpoint split_aux (sep : text) (skip : nat) (cur s : text) : list text :=
  match s with
  | [] => [rev cur]
  | c :: s' =>
      match skip with
      | S k => split_aux sep k cur s'
      | O =>
          if starts_with sep s
          then rev cur :: split_aux sep (length sep - 1) [] s'
          else split_aux sep 0 (c :: cur) s'
      end
  end.

Definition split (s sep : text) : list text := split_aux sep 0 [] s.

(** [s.replace(old, new)] for a non-empty [old]. *)
Fixpoint replace_aux (old new : text) (skip : nat) (s : text) : text :=
  match s with
  | [] => []
  | c :: s' =>
      match skip with
      | S k => replace_aux old new k s'
      | O =>
          if starts_with old s
          then new ++ replace_aux old new (length old - 1) s'
          else c :: replace_aux old new 0 s'
      end
  end.

Definition replace (s old new : text) : text := replace_aux old new 0 s.

(** The line boundaries of [str.splitlines]: LF, VT, FF, CR, FS, GS, RS,
    NEL, LS and PS. *)
Definition is_linebreak (c : char) : bool :=
  existsb (N.eqb c) [10; 11; 12; 13; 28; 29; 30; 133; 8232; 8233]%N.

(** [s.splitlines()]: CR LF is one boundary, and a boundary at the very end
    opens no further line. *)
Fixpoint splitlines_aux (cur s : text) : list text :=
  match s with
  | [] => match cur with [] => [] | _ :: _ => [rev cur] end
  | c :: s' =>
      if is_linebreak c then
        match s' with
        | d :: s'' =>
            if N.eqb c 13 && N.eqb d 10
            then rev cur :: splitlines_aux [] s''
            else rev cur :: splitlines_aux [] s'
        | [] => [rev cur]
        end
      else splitlines_aux (c :: cur) s'
  end.

Definition splitlines (s : text) : list text := splitlines_aux [] s.

(** [c.isspace()]. *)
Definition isspace (c : char) : bool :=
  (N.leb 9 c && N.leb c 13) || (N.leb 28 c && N.leb c 32)
  || existsb (N.eqb c) [133; 160; 5760; 8232; 8233; 8239; 8287; 12288]%N
  || (N.leb 8192 c && N.leb c 8202).

(** [s.split()]: the maximal runs of non-whitespace characters. *)
Fixpoint split_ws_aux (cur s : text) : list text :=
  match s with
  | [] => match cur with [] => [] | _ :: _ => [rev cur] end
  | c :: s' =>
      if isspace c then
        match cur with
        | [] => split_ws_aux [] s'
        | _ :: _ => rev cur :: split_ws_aux [] s'
        end
      else split_ws_aux (c :: cur) s'
  end.

Definition split_ws (s : text) : list text := split_ws_aux [] s.

(** [sep.join(l)]. *)
Fixpoint join (sep : text) (l : list text) : text :=
  match l with
  | [] => []
  | x :: l' =>
      match l' with
      | [] => x
      | _ :: _ => x ++ sep ++ join sep l'
      end
  end.

(** [l.index(x)] on a list of strings (the length of [l] when [x] is not
    there, where Python raises). *)
Fixpoint index (x : text) (l : list text) : nat :=
  match l with
  | [] => O
  | y :: l' => if text_eqb y x then O else S (index x l')
  end.

End Py.

(** ** Exceptions *)

(** The exceptions that the statements of the scripts themselves raise.
    What python-docx raises inside [add_paragraph] and [add_run] (a
    [KeyError] for a style that the template lacks, a [ValueError] for a
    control character in a text) is not modelled: a result [Ok] gives the
    paragraphs and runs handed to the writer, in order. *)
Inductive exn :=
| StopIteration
| AttributeError
| TypeError
| IndexError
| NameError (name : string).

Inductive result (A : Type) :=
| Ok (a : A)
| Raise (e : exn).

Arguments Ok {A} a.
Arguments Raise {A} e.

Definition bind {A B : Type} (m : result A) (k : A -> result B) : result B :=
  match m with
  | Ok a => k a
  | Raise e => Raise e
  end.

Notation "x <- m ;; k" := (bind m (fun x => k))
  (at level 61, m at next level, right associativity).

(** ** The tag tables (lines 47-59) *)

Definition tags : list text :=
  [py "b"; py "p"; py "i"; py "g"; py "ul"; py "sup"; py "sub"].

Definition quote : char := 34%N.

Definition span_open : text :=
  py "<span style=" ++ quote :: py "font-family: FGDCGeoAge" ++ quote :: py ">".

Definition startTags : list text :=
  map (fun tag => py "<" ++ tag ++ py ">") tags ++ [span_open].

Definition endTags : list text :=
  map (fun tag => py "</" ++ tag ++ py ">") tags ++ [py "</span>"].

(** [endTags[startTags.index(st)]]. *)
Definition endTag_of (st : text) : text :=
  nth (Py.index st startTags) endTags [].

(** ** The document under construction *)

(** What python-docx records of a run: its text and the one character format
    the script gives it ([bold], [italic], [font.superscript],
    [font.subscript] or a named character style). *)
Inductive fmt :=
| Plain
| Bold
| Italic
| Superscript
| Subscript
| CharStyle (name : text).

Record Run := mkRun { run_text : text; run_fmt : fmt }.

Record Paragraph := mkPar { par_style : text; par_runs : list Run }.

(** ** [isNotBlank], [notNullText] (lines 61-78); [None] is a NULL field *)

Definition isNotBlank (thing : option text) : bool :=
  match thing with
  | None => false
  | Some s => negb (Py.text_eqb s [])
  end.

Definition notNullText (txt : option text) : bool :=
  match txt with
  | None => false
  | Some s =>
      if Py.text_eqb s (py "#null") || Py.text_eqb s (py "#Null")
         || Py.text_eqb s (py "#") || Py.text_eqb s []
         || (Z.of_nat (length (Py.split_ws s)) =? 0)
      then false else true
  end.

(** [isKnownStyle] (lines 67-72): both branches of the loop body return, so
    the loop ends in its first round; [None] is what falls out of a loop
    over no name. *)
Definition known_styles : list text :=
  [py "DMUHeadnote"; py "DMU-Heading"; py "DMUUnit"].

Definition isKnownStyle (pStyle : text) : option bool :=
  match known_styles with
  | [] => None
  | n :: _ => if Py.contains n pStyle then Some true else Some false
  end.

(** ** [add_formatting] (lines 80-145) *)

(** An entry [[begin, end, st]] of [find_pos]. *)
Definition item : Type := Z * Z * text.

(** [a < b] on such entries: Python compares lists element by element. *)
Definition item_ltb (a b : item) : bool :=
  let '(b1, e1, s1) := a in
  let '(b2, e2, s2) := b in
  if b1 <? b2 then true else if b2 <? b1 then false
  else if e1 <? e2 then true else if e2 <? e1 then false
  else Py.text_ltb s1 s2.

(** [find_pos.sort()], as a stable insertion sort. *)
Fixpoint insert (x : item) (l : list item) : list item :=
  match l with
  | [] => [x]
  | y :: l' => if item_ltb y x then y :: insert x l' else x :: l
  end.

Fixpoint sort (l : list item) : list item :=
  match l with
  | [] => []
  | x :: l' => insert x (sort l')
  end.

(** Lines 92-98: every occurrence of every start tag found, with the result
    of the search for its end tag (-1 when there is none). *)
Definition scan (ptext : text) (res : list text) : list item :=
  flat_map
    (fun st =>
       let et := endTag_of st in
       map (fun begin => (begin, Py.find ptext et begin, st))
           (Py.finditer st ptext))
    res.

(** Lines 115-124: the run of the tagged text; the tags without a branch
    add none. *)
Definition tagged_run (st tagged_text : text) : list Run :=
  if Py.text_eqb st (py "<b>") then [mkRun tagged_text Bold]
  else if Py.text_eqb st (py "<i>") then [mkRun tagged_text Italic]
  else if Py.text_eqb st (py "<sup>") then [mkRun tagged_text Superscript]
  else if Py.text_eqb st (py "<sub>") then [mkRun tagged_text Subscript]
  else if Py.text_eqb st span_open
       then [mkRun tagged_text (CharStyle (py "DMUUnitLabeltypestyle"))]
  else [].

(** [paragraph.add_run(s)] under [if s:]. *)
Definition run_if (s : text) : list Run :=
  match s with
  | [] => []
  | _ :: _ => [mkRun s Plain]
  end.

(** Lines 107-143: the loop over [find_pos]; [find_pos[i+1]] is the head of
    the remaining entries. *)
Fixpoint slicing (ptext : text) (find_pos : list item) : list Run :=
  match find_pos with
  | [] => []
  | (begin, end_, st) :: rest =>
      let start := begin + len st in
      let tagged_text := Py.slice ptext start end_ in
      let et := endTag_of st in
      let start_n := end_ + len et in
      let end_n := match rest with
                   | (b', _, _) :: _ => b'
                   | [] => len ptext
                   end in
      let untagged_text := Py.slice ptext start_n end_n in
      tagged_run st tagged_text ++ run_if untagged_text ++ slicing ptext rest
  end.

(** The runs [add_formatting(paragraph, ptext)] appends to [paragraph], in
    order. *)
Definition add_formatting (ptext : text) : result (list Run) :=
  let res := filter (fun n => Py.contains n ptext) startTags in
  match res with
  | _ :: _ =>
      let find_pos := sort (scan ptext res) in
      match find_pos with
      | [] => Raise IndexError
      | (b0, _, _) :: _ =>
          let before := Py.slice ptext 0 b0 in
          Ok (run_if before ++ slicing ptext find_pos)
      end
  | [] => Ok [mkRun ptext Plain]
  end.

(** ** The paragraph splitting of a unit description (lines 251-261) *)

Definition split_paras (desc_text : text) : list text :=
  if Py.contains (py "<br>") desc_text then Py.split desc_text (py "<br>")
  else if Py.contains (py "<p>") desc_text then
    map (fun t => Py.replace t (py "</p>") []) (Py.split desc_text (py "<p>"))
  else Py.splitlines desc_text.

(** ** The module-level script (lines 147-288) *)

(** The Python values the script compares beyond strings: [sys.argv]
    entries against an integer, and the bound method [first_row[2].lower]
    against the title strings. *)
Inductive pyval :=
| PNone
| PStr (s : text)
| PInt (n : Z)
| PMethod (self : text) (name : string).

(** [a == b]: values of different types are unequal. *)
Definition py_eq (a b : pyval) : bool :=
  match a, b with
  | PNone, PNone => true
  | PStr s, PStr t => Py.text_eqb s t
  | PInt n, PInt m => n =? m
  | PMethod s f, PMethod t g => Py.text_eqb s t && String.eqb f g
  | _, _ => false
  end.

(** [x in l]. *)
Definition py_in (x : pyval) (l : list pyval) : bool := existsb (py_eq x) l.

(** [v.lower], the attribute, not its call. *)
Definition getattr_lower (v : option text) : result pyval :=
  match v with
  | Some s => Ok (PMethod s "lower")
  | None => Raise AttributeError
  end.

Definition of_field (v : option text) : pyval :=
  match v with
  | Some s => PStr s
  | None => PNone
  end.

(** A row of the cursor over [fields] (line 186); a NULL field is [None]. *)
Record Row := mkRow {
  mapunit : option text;
  label : option text;
  name : option text;
  age : option text;
  description : option text;
  paragraphstyle : option text;
  hierarchykey : option text
}.

Record Config := mkConfig {
  useMapUnitForUnitLabl : bool;
  isLMU : bool
}.

(** The module globals the loop reads and writes. [abbrv] is unbound until
    its first assignment. Every [add_run] of the script goes to the
    paragraph added last, so [document] is the list of paragraphs in order
    and a run is appended to its last one. The messages of
    [addMsgAndPrint] are not part of the document and are left out. *)
Record State := mkState {
  document : list Paragraph;
  lastParaWasHeading : bool;
  abbrv : option text
}.

Definition emDash : text := [8212%N].

Definition tab : char := 9%N.

(** [document.add_paragraph(text, style)]: the text, when truthy, is the
    paragraph's single run. *)
Definition add_paragraph (txt : option text) (style : text) : Paragraph :=
  mkPar style (match txt with Some s => run_if s | None => [] end).

(** [s.find(sub) > -1]. *)
Definition has (s sub : text) : bool := Py.find s sub 0 >? -1.

(** [add_formatting(paragraph, field)]; [n in None] is a [TypeError]. *)
Definition add_formatting_field (field : option text) : result (list Run) :=
  match field with
  | Some s => add_formatting s
  | None => Raise TypeError
  end.

(** Lines 211-216. *)
Definition heading_branch (st : State) (row : Row) (style : text)
  : result State :=
  header_runs <- add_formatting_field (name row) ;;
  let header_pr := mkPar style header_runs in
  if notNullText (description row) then
    headnote_runs <- add_formatting_field (description row) ;;
    Ok (mkState (document st ++ [header_pr; mkPar (py "DMUHeadnote") headnote_runs])
                (lastParaWasHeading st) (abbrv st))
  else
    Ok (mkState (document st ++ [header_pr]) (lastParaWasHeading st) (abbrv st)).

(** Lines 227-230: the assignments to [abbrv]; without one it keeps its
    binding, if any. *)
Definition pick_abbrv (cfg : Config) (st : State) (row : Row) : option text :=
  if negb (useMapUnitForUnitLabl cfg) && notNullText (label row) then label row
  else if useMapUnitForUnitLabl cfg && notNullText (mapunit row) then mapunit row
  else abbrv st.

(** Lines 251-274: the runs the description adds to the unit paragraph and
    the [DMUParagraph] paragraphs that follow it. *)
Definition description_part (desc_text : text)
  : result (list Run * list Paragraph) :=
  let paras := split_paras desc_text in
  match paras with
  | [] => Raise IndexError
  | first :: others =>
      first_runs <- add_formatting first ;;
      more <- fold_right
                (fun p acc =>
                   runs <- add_formatting p ;;
                   ps <- acc ;;
                   Ok (mkPar (py "DMUParagraph") runs :: ps))
                (Ok []) others ;;
      Ok (mkRun emDash Plain :: first_runs, more)
  end.

(** Lines 231-233: the abbreviation and a tab, two for a style that ends in
    4 or 5. *)
Definition label_text (style a : text) : text :=
  let a1 := a ++ [tab] in
  if Py.text_eqb (Py.last_char style) (py "4")
     || Py.text_eqb (Py.last_char style) (py "5")
  then a1 ++ [tab] else a1.

(** Lines 237-238. *)
Definition name_runs (row : Row) : list Run :=
  match name row with
  | Some n => if isNotBlank (name row)
              then [mkRun n (CharStyle (py "DMUUnitNameAgetypestyle"))]
              else []
  | None => []
  end.

(** Lines 241-242: the style name is passed to [format], which has no use
    for it, and [add_run] gets the text alone. *)
Definition age_runs (row : Row) : list Run :=
  match age row with
  | Some g => if isNotBlank (age row)
              then [mkRun (py "(" ++ g ++ py ")") Plain]
              else []
  | None => []
  end.

(** Lines 220-279. *)
Definition unit_branch (cfg : Config) (st : State) (row : Row) (style : text)
  : result State :=
  let unit_style :=
    if lastParaWasHeading st then py "DMUUnit11stafterheading" else style in
  match pick_abbrv cfg st row with
  | None => Raise (NameError "abbrv")
  | Some a =>
      let label_run :=
        mkRun (label_text style a) (CharStyle (py "DMUUnitLabeltypestyle")) in
      desc <- match description row with
              | Some d => if isNotBlank (description row) && negb (isLMU cfg)
                          then description_part d
                          else Ok ([], [])
              | None => Ok ([], [])
              end ;;
      let unit :=
        mkPar unit_style
              (label_run :: name_runs row ++ age_runs row ++ fst desc) in
      Ok (mkState (document st ++ unit :: snd desc)
                  (has style (py "Head"))
                  (Some (label_text style a)))
  end.

(** The body of the loop (lines 209-282); [None] has no [find]. *)
Definition process_row (cfg : Config) (st : State) (row : Row) : result State :=
  match paragraphstyle row with
  | None => Raise AttributeError
  | Some style =>
      if has style (py "DMU-Heading") then heading_branch st row style
      else if has style (py "DMUUnit") then unit_branch cfg st row style
      else Ok st
  end.

Fixpoint process_rows (cfg : Config) (st : State) (rows : list Row)
  : result State :=
  match rows with
  | [] => Ok st
  | row :: rows' =>
      st' <- process_row cfg st row ;;
      process_rows cfg st' rows'
  end.

(** [sys.argv[i]]. *)
Definition arg (argv : list text) (i : nat) : result text :=
  match nth_error argv i with
  | Some a => Ok a
  | None => Raise IndexError
  end.

(** [dmuRows.next()]. *)
Definition next (rows : list Row) : result (Row * list Row) :=
  match rows with
  | r :: rows' => Ok (r, rows')
  | [] => Raise StopIteration
  end.

Definition titles : list pyval :=
  [PStr (py "description of map units"); PStr (py "list of map units")].

(** The script, from its arguments and the rows of the cursor in
    [HierarchyKey] order to the paragraphs of the document it saves. *)
Definition main (argv : list text) (rows : list Row) : result (list Paragraph) :=
  _ <- arg argv 1 ;;
  _ <- arg argv 2 ;;
  _ <- arg argv 3 ;;
  a4 <- arg argv 4 ;;
  a5 <- arg argv 5 ;;
  let cfg := mkConfig (py_eq (PStr a4) (PStr (py "true")))
                      (py_eq (PStr a5) (PStr (py "true"))) in
  let title :=
    if isLMU cfg then add_paragraph (Some (py "LIST OF MAP UNITS")) (py "DMU-Heading1")
    else add_paragraph (Some (py "DESCRIPTION OF MAP UNITS")) (py "DMU-Heading1") in
  fr <- next rows ;;
  let first_row := fst fr in
  lower <- getattr_lower (name first_row) ;;
  rows1 <- (if py_in lower titles
            then (r <- next (snd fr) ;; Ok (snd r))
            else Ok (snd fr)) ;;
  let doc :=
    if py_eq (of_field (paragraphstyle first_row)) (PStr (py "DMUHeadnote"))
       && negb (isLMU cfg)
    then [title; add_paragraph (description first_row) (py "DMUHeadnote")]
    else [title] in
  st <- process_rows cfg (mkState doc false None) rows1 ;;
  if py_eq (PStr a4) (PInt 3) then Raise (NameError "Null")
  else Ok (document st).

(** ** Flat markup

    A text in which the tags with a character format occur closed and side
    by side: some plain text, then spans [<tag>body</tag>], each followed by
    plain text. *)

Inductive stag := TB | TI | TSup | TSub | TSpan.

Definition stag_open (k : stag) : text :=
  match k with
  | TB => py "<b>"
  | TI => py "<i>"
  | TSup => py "<sup>"
  | TSub => py "<sub>"
  | TSpan => span_open
  end.

Definition stag_close (k : stag) : text :=
  match k with
  | TB => py "</b>"
  | TI => py "</i>"
  | TSup => py "</sup>"
  | TSub => py "</sub>"
  | TSpan => py "</span>"
  end.

Definition stag_fmt (k : stag) : fmt :=
  match k with
  | TB => Bold
  | TI => Italic
  | TSup => Superscript
  | TSub => Subscript
  | TSpan => CharStyle (py "DMUUnitLabeltypestyle")
  end.

Record span := mkSpan { sp_tag : stag; sp_body : text; sp_after : text }.

Definition span_text (s : span) : text :=
  stag_open (sp_tag s) ++ sp_body s ++ stag_close (sp_tag s) ++ sp_after s.

Definition flat_text (before : text) (spans : list span) : text :=
  before ++ flat_map span_text spans.

(** The same text with the markers of every span removed. *)
Definition visible_text (before : text) (spans : list span) : text :=
  before ++ flat_map (fun s => sp_body s ++ sp_after s) spans.

(** No start tag of the catalog occurs in [t]. *)
Definition marker_free (t : text) : Prop :=
  forall st, In st startTags -> Py.contains st t = false.

(** The pieces of a span hold no start tag, and its body does not hold its
    own end tag. *)
Definition span_ok (s : span) : Prop :=
  marker_free (sp_body s) /\ marker_free (sp_after s)
  /\ Py.contains (stag_close (sp_tag s)) (sp_body s) = false.

(** The runs a span stands for. *)
Definition span_runs (s : span) : list Run :=
  mkRun (sp_body s) (stag_fmt (sp_tag s)) :: run_if (sp_after s).

(** The entries of [find_pos] a list of spans starting at offset [off]
    stands for. *)
Fixpoint items (off : Z) (l : list span) : list item :=
  match l with
  | [] => []
  | s :: l' =>
      (off, off + len (stag_open (sp_tag s)) + len (sp_body s),
       stag_open (sp_tag s))
      :: items (off + len (span_text s)) l'
  end.

Definition begin_of (it : item) : Z := fst (fst it).

(** Entries in the order of their [begin]. *)
Definition by_begin (a b : item) : Prop := begin_of a < begin_of b.

(** Offset of the first occurrence of [p] in [s]. *)
Fixpoint occ (p s : text) : option nat :=
  if Py.starts_with p s then Some O
  else match s with
       | [] => None
       | _ :: s' => option_map S (occ p s')
       end.

(** An offset moved [n] characters to the right. *)
Definition shift (n : nat) (o : option nat) : option nat :=
  option_map (Nat.add n) o.

Definition lt_sign : char := 60%N.

(** Every tag of the catalog is a ['<'] followed by other characters. *)
Definition tag_like (p : text) : Prop :=
  exists p', p = lt_sign :: p' /\ ~ In lt_sign p'.

Definition lt_headed (r : text) : Prop :=
  r = [] \/ exists r', r = lt_sign :: r'.


(** ** Sample rows and arguments *)

Definition field (s : string) : option text := Some (py s).

Definition argv_dmu : list text :=
  [py "GeMS_DMUtoDocx_AGP2.py"; py "map.gdb"; py "out"; py "dmu";
   py "false"; py "false"].

Definition argv_lmu : list text :=
  [py "GeMS_DMUtoDocx_AGP2.py"; py "map.gdb"; py "out"; py "lmu";
   py "false"; py "true"].

Definition row_title : Row :=
  mkRow None None (field "Description of Map Units") None None
        (field "DMU-Heading1") (field "1").

Definition row_heading : Row :=
  mkRow None None (field "SURFICIAL DEPOSITS") None None
        (field "DMU-Heading2") (field "1-1").

Definition row_Qal : Row :=
  mkRow (field "Qal") (field "Qal") (field "Alluvium") (field "Holocene")
        (field "") (field "DMUUnit1") (field "1-1-1").

Definition row_Qt : Row :=
  mkRow (field "Qt") (field "Qt") (field "Terrace deposits")
        (field "Pleistocene") (field "") (field "DMUUnit1") (field "1-1-2").

Definition row_nolabel : Row :=
  mkRow None None (field "Landslide deposits") (field "Holocene")
        (field "") (field "DMUUnit1") (field "1-1-3").


Definition title_dmu : Paragraph :=
  mkPar (py "DMU-Heading1") [mkRun (py "DESCRIPTION OF MAP UNITS") Plain].

Definition label_style : fmt := CharStyle (py "DMUUnitLabeltypestyle").
Definition nameage_style : fmt := CharStyle (py "DMUUnitNameAgetypestyle").

(** * The tools of [gems-toolbox] *)

(** ** Values of tool parameters *)

(** A parameter of a tool as Python has it. *)
Inductive param :=
| PaNone
| PaBool (b : bool)
| PaInt (n : Z)
| PaStr (s : text).

(** [a == b]; [True] and [False] are the integers 1 and 0. *)
Definition param_eq (a b : param) : bool :=
  match a, b with
  | PaNone, PaNone => true
  | PaBool x, PaBool y => Bool.eqb x y
  | PaInt n, PaInt m => n =? m
  | PaBool x, PaInt n => (if x then 1 else 0) =? n
  | PaInt n, PaBool x => n =? (if x then 1 else 0)
  | PaStr s, PaStr t => Py.text_eqb s t
  | _, _ => false
  end.

(** [x in l]. *)
Definition param_in (x : param) (l : list param) : bool :=
  existsb (param_eq x) l.

(** [s.endswith(suffix)]. *)
Definition ends_with (s suffix : text) : bool :=
  Py.starts_with (rev suffix) (rev s).

(** [s.lstrip()] and [s.strip()]. *)
Fixpoint lstrip (s : text) : text :=
  match s with
  | [] => []
  | c :: s' => if Py.isspace c then lstrip s' else s
  end.

Definition strip (s : text) : text := rev (lstrip (rev (lstrip s))).

(** [l[a:b]] on a list, for indices that are not negative. *)
Definition lslice {A : Type} (l : list A) (a b : nat) : list A :=
  firstn (b - a) (skipn a l).

Module CreateDatabase.

(** [eval_bool] (lines 50-56). *)
Definition eval_bool (p : param) : bool :=
  if param_in p [PaInt 1; PaBool true; PaStr (py "1"); PaStr (py "yes");
                 PaStr (py "Yes"); PaStr (py "true"); PaStr (py "True")]
  then true else false.

(** What [addMsgAndPrint] sends out. *)
Inductive output :=
| Print (s : text)
| AddMessage (s : text)
| AddWarning (s : text)
| AddError (s : text).

(** [addMsgAndPrint] (lines 58-71): the calls it makes, in order, when no
    call of [arcpy] fails (a failure ends the loop silently). *)
Definition addMsgAndPrint (msg : text) (severity : Z) : list output :=
  Print msg
  :: flat_map
       (fun string =>
          if severity =? 0 then [AddMessage string]
          else if severity =? 1 then [AddWarning string]
          else if severity =? 2 then [AddError string]
          else [])
       (Py.split msg [10%N]).

(** A field definition of [tableDict]: a list such as
    [['MapUnitPolys_ID', 'String', 'NoNulls', 50]]. *)
Definition fdef : Type := list param.

(** [a == b] on lists. *)
Fixpoint fdef_eqb (a b : fdef) : bool :=
  match a, b with
  | [], [] => true
  | x :: a', y :: b' => param_eq x y && fdef_eqb a' b'
  | _, _ => false
  end.

(** [[n for n in f_list if n[0] == start_name]]; [n[0]] raises on an empty
    definition. *)
Fixpoint named (start_name : text) (f_list : list fdef) : result (list fdef) :=
  match f_list with
  | [] => Ok []
  | n :: rest =>
      match n with
      | [] => Raise IndexError
      | n0 :: _ =>
          found <- named start_name rest ;;
          Ok (if param_eq n0 (PaStr start_name) then n :: found else found)
      end
  end.

(** [f_list.index(x)] (the length of the list when [x] is not in it, where
    Python raises). *)
Fixpoint index_of (x : fdef) (f_list : list fdef) : nat :=
  match f_list with
  | [] => O
  | n :: rest => if fdef_eqb n x then O else S (index_of x rest)
  end.

(** [f_list[i][0] = end_name]. *)
Fixpoint set_name (i : nat) (end_name : text) (f_list : list fdef)
  : result (list fdef) :=
  match f_list, i with
  | [], _ => Raise IndexError
  | n :: rest, O =>
      match n with
      | [] => Raise IndexError
      | _ :: tl => Ok ((PaStr end_name :: tl) :: rest)
      end
  | n :: rest, S i' =>
      rest' <- set_name i' end_name rest ;;
      Ok (n :: rest')
  end.

(** [rename_field] (lines 103-113), on the deep copy it makes of [defs];
    the two messages are left out. *)
Definition rename_field (defs : list fdef) (start_name end_name : text)
  : result (list fdef) :=
  list_item <- named start_name defs ;;
  match list_item with
  | [] => Raise IndexError
  | first :: _ => set_name (index_of first defs) end_name defs
  end.

(** Lines 192-202: the names of the cross-section datasets and the
    prefixes of their feature classes. *)
Definition alphabet : text := py " ABCDEFGHIJKLMNOPQRSTUVWXYZ".

Definition clamp_sections (nCrossSections : Z) : Z :=
  let n := if nCrossSections >? 26 then 26 else nCrossSections in
  if n <? 0 then 0 else n.

Fixpoint section_names (ns : list nat) : result (list (text * text)) :=
  match ns with
  | [] => Ok []
  | n :: ns' =>
      match nth_error alphabet n with
      | None => Raise IndexError
      | Some xsLetter =>
          rest <- section_names ns' ;;
          Ok ((py "CrossSection" ++ [xsLetter], py "CS" ++ [xsLetter]) :: rest)
      end
  end.

(** [range(1, nCrossSections+1)] after the clamping. *)
Definition cross_sections (nCrossSections : Z) : result (list (text * text)) :=
  section_names (seq 1 (Z.to_nat (clamp_sections nCrossSections))).

(** Lines 367-369 of [parse_parameters]. *)
Definition gdb_name (db_name : text) : text :=
  if negb (ends_with db_name (py ".gdb")) then db_name ++ py ".gdb"
  else db_name.

(** The class [[-;,.\s]] of the pattern in line 379. *)
Definition is_separator (c : char) : bool :=
  existsb (N.eqb c) [45; 59; 44; 46]%N || Py.isspace c.

(** [re.split(r"[-;,.\s]\s*", s)]: a match is a character of the class and
    the whitespace after it. [in_match] says that a match is being read. *)
Fixpoint re_split_aux (in_match : bool) (cur s : text) : list text :=
  match s with
  | [] => [rev cur]
  | c :: s' =>
      if in_match && Py.isspace c then re_split_aux true cur s'
      else if is_separator c then rev cur :: re_split_aux true [] s'
      else re_split_aux false (c :: cur) s'
  end.

(** Lines 375-379, for a parameter that is a [str]. *)
Definition optional_elements (p3 : text) : list text :=
  if Py.text_eqb p3 (py "#") || Py.text_eqb p3 [] then []
  else re_split_aux false [] p3.

End CreateDatabase.

Module AttributeByKeyValues.

(** [eval_bool] (lines 22-28). *)
Definition eval_bool (p : param) : bool :=
  if param_in p [PaInt 1; PaStr (py "1"); PaBool true; PaStr (py "true");
                 PaStr (py "True"); PaStr (py "yes"); PaStr (py "Yes");
                 PaStr (py "on"); PaStr (py "On"); PaStr (py "hella")]
  then true else false.

(** A [dict] with [str] keys, in the order in which its keys came in. *)
Definition dict (V : Type) : Type := list (text * V).

(** [d[k] = v]. *)
Fixpoint dict_set {V : Type} (k : text) (v : V) (d : dict V) : dict V :=
  match d with
  | [] => [(k, v)]
  | (k', v') :: d' =>
      if Py.text_eqb k' k then (k', v) :: d' else (k', v') :: dict_set k v d'
  end.

(** [d[k]], [None] standing for the [KeyError]. *)
Fixpoint dict_get {V : Type} (k : text) (d : dict V) : option V :=
  match d with
  | [] => None
  | (k', v') :: d' => if Py.text_eqb k' k then Some v' else dict_get k d'
  end.

Definition bar : text := py "|".

(** Lines 71-73: the lines of the file without the comments and the blank
    lines, stripped, with the blanks around a separator removed. *)
Definition clean_lines (key_lines : list text) : list text :=
  let key_lines :=
    filter (fun line => negb (Py.starts_with (py "#") line)) key_lines in
  let key_lines :=
    map strip
        (filter (fun line => negb (Py.text_eqb (strip line) [])) key_lines) in
  map (fun line => Py.replace line (py " | ") bar) key_lines.

(** The test of lines 79-80: the line has no separator. *)
Definition is_name (line : text) : bool :=
  (length (Py.split line bar) =? 1)%nat.

(** Lines 77-82: the indices of the lines that name a table, then the
    number of lines. *)
Fixpoint name_indices (i : nat) (key_lines : list text) : list nat :=
  match key_lines with
  | [] => []
  | line :: rest =>
      if is_name line then i :: name_indices (S i) rest
      else name_indices (S i) rest
  end.

Definition fc_indices (key_lines : list text) : list nat :=
  name_indices 0 key_lines ++ [length key_lines].

(** Line 101: [{n.split('|')[0]: n.split('|')[1:] for n in fc_vals[1:]}]. *)
Definition val_dict_of (lines : list text) : dict (list text) :=
  fold_left
    (fun d n => dict_set (hd [] (Py.split n bar)) (tl (Py.split n bar)) d)
    lines [].

Record tables := mkTables {
  update_fields_dict : dict (list text);
  fc_val_dict : dict (dict (list text))
}.

(** Lines 90-103: the loop over [fc_indices]; [fc_indices[n]] and
    [fc_indices[n + 1]] are the first two of the indices still to do. *)
Fixpoint read_tables (key_lines : list text) (indices : list nat)
         (acc : tables) : result tables :=
  match indices with
  | a :: ((b :: _) as indices') =>
      match nth_error key_lines a with
      | None => Raise IndexError
      | Some fc_name =>
          let fc_vals := lslice key_lines (a + 1) b in
          match fc_vals with
          | [] => Raise IndexError
          | fields :: vals =>
              let update_fields := Py.split fields bar in
              read_tables key_lines indices'
                (mkTables
                   (dict_set fc_name update_fields (update_fields_dict acc))
                   (dict_set fc_name (val_dict_of vals) (fc_val_dict acc)))
          end
      end
  | _ => Ok acc
  end.

(** Lines 71-103, from the lines of the key-value file. *)
Definition parse (lines : list text) : result tables :=
  let key_lines := clean_lines lines in
  read_tables key_lines (fc_indices key_lines) (mkTables [] []).

(** What stops the update of a row. *)
Inductive raised :=
| RAttributeError
| RIndexError
| RKeyError.

(** [row[i] = v]. *)
Fixpoint set_cell (i : nat) (v : option text) (row : list (option text))
  : list (option text) :=
  match row, i with
  | [], _ => []
  | _ :: rest, O => v :: rest
  | c :: rest, S i' => c :: set_cell i' v rest
  end.

(** Lines 116-124: the loop over [enumerate(update_vals)]; [n] counts the
    values done. [str.strip] returns a [str]. *)
Fixpoint write_vals (forceCalc : bool) (update_vals : list text) (n : nat)
         (row : list (option text)) : list (option text) + raised :=
  match update_vals with
  | [] => inl row
  | k :: rest =>
      if forceCalc then
        match nth_error row (n + 1) with
        | None => inr RIndexError
        | Some _ => write_vals forceCalc rest (S n) (set_cell (n + 1) (Some k) row)
        end
      else
        match nth_error row (n + 1) with
        | None => inr RIndexError
        | Some None => inr RAttributeError
        | Some (Some cell) =>
            let stripped : option text := Some (strip cell) in
            match stripped with
            | None => write_vals forceCalc rest (S n) (set_cell (n + 1) (Some k) row)
            | Some _ => write_vals forceCalc rest (S n) row
            end
        end
  end.

(** Lines 115-126: the row handed to [cursor.updateRow]. *)
Definition update_row (forceCalc : bool) (update_val_dict : dict (list text))
           (row : list (option text)) : list (option text) + raised :=
  match row with
  | [] => inr RIndexError
  | None :: _ => inr RAttributeError
  | Some key :: _ =>
      match dict_get (strip key) update_val_dict with
      | None => inr RKeyError
      | Some update_vals => write_vals forceCalc update_vals 0 row
      end
  end.

End AttributeByKeyValues.

Module RebuildMapUnitPolys.

Section TrailingNumber.

(** The first code point of every block of ten decimal digits (category
    Nd) in the Unicode tables of the interpreter: ['0'] is 48. The pattern
    [\d] and [int] read a digit off the same tables. *)
Variable digit_zeros : list N.

(** The value of [c] as a decimal digit. *)
Definition decimal (c : char) : option Z :=
  match find (fun z => N.leb z c && N.ltb c (z + 10)) digit_zeros with
  | Some z => Some (Z.of_N (c - z))
  | None => None
  end.

(** The digits at the head of a reversed text, the last digit first. *)
Fixpoint digit_run (rs : text) : list Z :=
  match rs with
  | [] => []
  | c :: rs' =>
      match decimal c with
      | Some d => d :: digit_run rs'
      | None => []
      end
  end.

(** [int] of digits given from the last to the first. *)
Fixpoint int_of (ds : list Z) : Z :=
  match ds with
  | [] => 0
  | d :: ds' => d + 10 * int_of ds'
  end.

(** [get_trailing_number] (lines 22-24): [\d+$] matches the digits at the
    very end, or else the digits before a line feed that ends the text. *)
Definition get_trailing_number (s : text) : Z :=
  let rs := rev s in
  match digit_run rs with
  | _ :: _ => int_of (digit_run rs)
  | [] =>
      match rs with
      | c :: rs' => if N.eqb c 10 then int_of (digit_run rs') else 0
      | [] => 0
      end
  end.

(** Lines 111-118: the largest trailing number of the feature classes. *)
Definition max_trailing (pfcs : list text) : Z :=
  fold_left
    (fun maxN pfc =>
       let n := get_trailing_number pfc in
       if n >? maxN then n else maxN)
    pfcs 0.

End TrailingNumber.

End RebuildMapUnitPolys.

(** ** Notions used to state the properties of the tools *)

(** The field definition [n] is not empty and [n[0] == start_name]. *)
Definition has_name (start_name : text) (n : CreateDatabase.fdef) : bool :=
  match n with
  | [] => false
  | n0 :: _ => param_eq n0 (PaStr start_name)
  end.

(** The names of all 26 cross sections. *)
Definition all_sections : list (text * text) :=
  Eval vm_compute in
    match CreateDatabase.section_names (seq 1 26) with
    | Ok l => l
    | Raise _ => []
    end.

(** No character of the piece is of the class the pattern splits at. *)
Definition separator_free (piece : text) : bool :=
  forallb (fun c => negb (CreateDatabase.is_separator c)) piece.

(** A table of the key-value file: the line that names it and the lines
    under it, up to the next line that names a table. *)
Definition block : Type := text * list text.

Definition block_lines (b : block) : list text := fst b :: snd b.

(** The lines before the first table, and the tables. *)
Fixpoint chunk (key_lines : list text) : list text * list block :=
  match key_lines with
  | [] => ([], [])
  | line :: rest =>
      let (under, blocks) := chunk rest in
      if AttributeByKeyValues.is_name line
      then ([], (line, under) :: blocks)
      else (line :: under, blocks)
  end.

(** What a table adds to the two dictionaries: the names of its fields
    from its first line, the values by key from its other lines. *)
Definition add_block (acc : AttributeByKeyValues.tables) (b : block)
  : result AttributeByKeyValues.tables :=
  match snd b with
  | [] => Raise IndexError
  | fields :: vals =>
      Ok (AttributeByKeyValues.mkTables
            (AttributeByKeyValues.dict_set
               (fst b) (Py.split fields AttributeByKeyValues.bar)
               (AttributeByKeyValues.update_fields_dict acc))
            (AttributeByKeyValues.dict_set
               (fst b) (AttributeByKeyValues.val_dict_of vals)
               (AttributeByKeyValues.fc_val_dict acc)))
  end.

Fixpoint add_blocks (acc : AttributeByKeyValues.tables) (blocks : list block)
  : result AttributeByKeyValues.tables :=
  match blocks with
  | [] => Ok acc
  | b :: blocks' =>
      acc' <- add_block acc b ;;
      add_blocks acc' blocks'
  end.

(** ** Notions used to state what a split is *)

(** [p] occurs in [t]. *)
Definition occurs (p t : text) : Prop := exists a b, t = a ++ p ++ b.

(** [piece] is [raw] with every occurrence of [old] taken out: [raw] is cut
    at its occurrences of [old] into chunks that hold none, and [piece] is
    the chunks put together. *)
Definition stripped (old raw piece : text) : Prop :=
  exists chunks,
    Py.join old chunks = raw
    /\ Forall (fun c => ~ occurs old c) chunks
    /\ piece = concat chunks.

(** The characters that end a line: LF, VT, FF, CR, FS, GS, RS, NEL, LS and
    PS; a line boundary is one of them, or CR LF. *)
Definition boundary_chars : list char :=
  [10; 11; 12; 13; 28; 29; 30; 133; 8232; 8233]%N.

Definition line_boundaries : list text :=
  [13; 10]%N :: map (fun c => [c]) boundary_chars.

Definition boundary_free (p : text) : Prop :=
  forall c, In c boundary_chars -> ~ In c p.

(** [cut_lines t ls]: [ls] are the lines of [t]. A line holds no boundary
    character and is followed by a boundary, except the last one, which is
    there only when some text is left after the last boundary; a CR that is
    followed by a LF is never a boundary by itself. *)
Inductive cut_lines : text -> list text -> Prop :=
| cut_empty : cut_lines [] []
| cut_last (p : text) :
    p <> [] -> boundary_free p -> cut_lines p [p]
| cut_line (p b rest : text) (ls : list text) :
    boundary_free p ->
    In b line_boundaries ->
    (b = [13%N] -> forall r, rest <> 10%N :: r) ->
    cut_lines rest ls ->
    cut_lines (p ++ b ++ rest) (p :: ls).

(** * Properties *)

(** ** Evaluations of the script *)

(** C2: an opening bold marker without a closing one. [find] answers -1,
    which the slices take as an index from the end: the run builder adds a
    bold run holding the text after the marker without its last character,
    then a plain run holding the text after the marker again. No run holds
    the literal marker. *)
Theorem unterminated_bold_runs :
  add_formatting (py "<b>abc")
  = Ok [mkRun (py "ab") Bold; mkRun (py "abc") Plain].
Proof. vm_compute. reflexivity. Qed.

(** C3: a heading row directly followed by a unit row. The heading branch
    leaves [lastParaWasHeading] as it was, so the unit paragraph carries the
    row's own style, not ['DMUUnit11stafterheading']. *)
Theorem unit_after_heading_style :
  main argv_dmu [row_title; row_heading; row_Qal]
  = Ok [title_dmu;
        mkPar (py "DMU-Heading2") [mkRun (py "SURFICIAL DEPOSITS") Plain];
        mkPar (py "DMUUnit1")
              [mkRun (py "Qal" ++ [tab]) label_style;
               mkRun (py "Alluvium") nameage_style;
               mkRun (py "(Holocene)") Plain]].
Proof. vm_compute. reflexivity. Qed.

(** C4: a first row that is a unit, not a title. [dmuRows.next()] takes it
    off the cursor, the comparison of the bound method [lower] with the two
    titles fails, and the loop starts at the second row: the first row
    leaves no paragraph in the document. *)
Theorem first_unit_row_dropped :
  main argv_dmu [row_Qal; row_Qt]
  = Ok [title_dmu;
        mkPar (py "DMUUnit1")
              [mkRun (py "Qt" ++ [tab]) label_style;
               mkRun (py "Terrace deposits") nameage_style;
               mkRun (py "(Pleistocene)") Plain]].
Proof. vm_compute. reflexivity. Qed.

(** C5: a unit row with neither [label] nor [mapunit]. As the first unit of
    the table it stops the script with a [NameError] on [abbrv]; after
    another unit it is labelled with that unit's label and tabs. *)
Theorem missing_abbreviation_outcomes :
  main argv_dmu [row_title; row_nolabel; row_Qt] = Raise (NameError "abbrv")
  /\ main argv_dmu [row_title; row_Qal; row_nolabel]
     = Ok [title_dmu;
           mkPar (py "DMUUnit1")
                 [mkRun (py "Qal" ++ [tab]) label_style;
                  mkRun (py "Alluvium") nameage_style;
                  mkRun (py "(Holocene)") Plain];
           mkPar (py "DMUUnit1")
                 [mkRun (py "Qal" ++ [tab; tab]) label_style;
                  mkRun (py "Landslide deposits") nameage_style;
                  mkRun (py "(Holocene)") Plain]].
Proof. split; vm_compute; reflexivity. Qed.

(** C8: the age run of a unit row. The style name is an argument of
    [format], not of [add_run]: the run holds the age in parentheses and no
    character style, while the name run before it carries
    ['DMUUnitNameAgetypestyle']. *)
Theorem age_run_has_no_style :
  process_row (mkConfig false false) (mkState [] false None) row_Qal
  = Ok (mkState
          [mkPar (py "DMUUnit1")
                 [mkRun (py "Qal" ++ [tab]) label_style;
                  mkRun (py "Alluvium") nameage_style;
                  mkRun (py "(Holocene)") Plain]]
          false (Some (py "Qal" ++ [tab]))).
Proof. vm_compute. reflexivity. Qed.

(** ** The string primitives *)

Lemma text_eqb_eq (a b : text) : Py.text_eqb a b = true <-> a = b.
Proof.
  revert b; induction a as [|x a IH]; intros [|y b]; simpl; split;
    try congruence; try discriminate.
  - intros H. apply andb_true_iff in H as [Hx Hab].
    apply N.eqb_eq in Hx. apply IH in Hab. congruence.
  - intros H. injection H as -> ->. rewrite N.eqb_refl. simpl.
    apply IH. reflexivity.
Qed.

Lemma text_eqb_refl (a : text) : Py.text_eqb a a = true.
Proof. apply text_eqb_eq. reflexivity. Qed.

Lemma text_eqb_neq (a b : text) : a <> b -> Py.text_eqb a b = false.
Proof.
  intros H. destruct (Py.text_eqb a b) eqn:E; [|reflexivity].
  apply text_eqb_eq in E. contradiction.
Qed.

Lemma len_app (a b : text) : len (a ++ b) = len a + len b.
Proof. unfold len. rewrite length_app. lia. Qed.

Lemma len_nonneg (a : text) : 0 <= len a.
Proof. unfold len. lia. Qed.

(** [split] always yields at least one piece. *)
Lemma split_aux_cons (sep : text) (s : text) :
  forall skip cur, exists p ps, Py.split_aux sep skip cur s = p :: ps.
Proof.
  induction s as [|c s IH]; intros skip cur; simpl.
  - eauto.
  - destruct skip as [|k]; [|apply IH].
    destruct (Py.starts_with sep (c :: s)); [eauto|apply IH].
Qed.

(** Without the separator [split] yields the text itself. *)
Lemma split_aux_absent (sep : text) (s : text) :
  forall cur, occ sep s = None -> Py.split_aux sep 0 cur s = [rev cur ++ s].
Proof.
  induction s as [|c s IH]; intros cur H; simpl in *.
  - rewrite app_nil_r. reflexivity.
  - destruct (Py.starts_with sep (c :: s)); [discriminate|].
    destruct (occ sep s) eqn:E; [discriminate|].
    rewrite IH by reflexivity. simpl. rewrite <- app_assoc. reflexivity.
Qed.

(** [splitlines] yields a line as soon as there is a character. *)
Lemma splitlines_aux_cons (s : text) :
  forall cur, cur <> [] \/ s <> [] ->
  exists p ps, Py.splitlines_aux cur s = p :: ps.
Proof.
  induction s as [|c s IH]; intros cur H; simpl.
  - destruct cur; [destruct H; congruence|eauto].
  - destruct (Py.is_linebreak c).
    + destruct s as [|d s']; [eauto|].
      destruct (N.eqb c 13 && N.eqb d 10); eauto.
    + apply IH. left. discriminate.
Qed.

(** Without line boundaries the text is its only line. *)
Lemma splitlines_aux_single (s : text) :
  forall cur, forallb (fun c => negb (Py.is_linebreak c)) s = true ->
  cur <> [] \/ s <> [] ->
  Py.splitlines_aux cur s = [rev cur ++ s].
Proof.
  induction s as [|c s IH]; intros cur Hs H.
  - simpl. destruct cur; [destruct H; congruence|].
    rewrite app_nil_r. reflexivity.
  - simpl in Hs. apply andb_true_iff in Hs as [Hc Hs].
    apply negb_true_iff in Hc.
    change (Py.splitlines_aux cur (c :: s))
      with (if Py.is_linebreak c
            then match s with
                 | d :: s'' =>
                     if N.eqb c 13 && N.eqb d 10
                     then rev cur :: Py.splitlines_aux [] s''
                     else rev cur :: Py.splitlines_aux [] s
                 | [] => [rev cur]
                 end
            else Py.splitlines_aux (c :: cur) s).
    rewrite Hc. rewrite IH; [|assumption|left; discriminate].
    simpl. rewrite <- app_assoc. reflexivity.
Qed.


Lemma occ_find_at (p s : text) :
  forall i, Py.find_at p s i
            = match occ p s with
              | Some k => i + Z.of_nat k
              | None => -1
              end.
Proof.
  induction s as [|c s IH]; intros i; simpl.
  - destruct (Py.starts_with p []); simpl; lia.
  - destruct (Py.starts_with p (c :: s)); simpl; [lia|].
    rewrite IH. destruct (occ p s); simpl; lia.
Qed.

Lemma contains_occ (p s : text) :
  Py.contains p s = false <-> occ p s = None.
Proof.
  unfold Py.contains. rewrite occ_find_at.
  destruct (occ p s) as [k|]; simpl; split; intros H;
    try reflexivity; try discriminate.
  apply negb_false_iff, Z.eqb_eq in H. lia.
Qed.

Lemma contains_true_occ (p s : text) :
  Py.contains p s = true -> exists k, occ p s = Some k.
Proof.
  intros H. destruct (occ p s) as [k|] eqn:E; [eauto|].
  apply contains_occ in E. congruence.
Qed.

(** ** The tag tables *)

Lemma startTags_eq :
  startTags
  = [py "<b>"; py "<p>"; py "<i>"; py "<g>"; py "<ul>"; py "<sup>";
     py "<sub>"; span_open].
Proof. reflexivity. Qed.

Lemma startTags_tag_like (st : text) : In st startTags -> tag_like st.
Proof.
  rewrite startTags_eq. intros H. unfold tag_like.
  repeat (destruct H as [<-|H]; [eexists; split; [reflexivity|]|]);
    try contradiction;
    vm_compute; intros H;
    repeat (destruct H as [H|H]; [discriminate|]); exact H.
Qed.

Lemma tag_like_nonempty (p : text) : tag_like p -> p <> [].
Proof. intros [p' [-> _]]. discriminate. Qed.

Lemma stag_open_In (k : stag) : In (stag_open k) startTags.
Proof. rewrite startTags_eq. destruct k; simpl; tauto. Qed.

Lemma endTag_of_open (k : stag) : endTag_of (stag_open k) = stag_close k.
Proof. destruct k; reflexivity. Qed.

Lemma stag_close_tag_like (k : stag) : tag_like (stag_close k).
Proof.
  unfold tag_like. destruct k; eexists; (split; [reflexivity|]);
    vm_compute; intros H;
    repeat (destruct H as [H|H]; [discriminate|]); exact H.
Qed.

(** ** [add_formatting] always returns *)

Lemma finditer_aux_found (p s : text) :
  p <> [] -> forall k i, occ p s = Some k -> Py.finditer_aux p 0 s i <> [].
Proof.
  intros Hp. induction s as [|c s IH]; intros k i H; simpl in *.
  - destruct p; [congruence|discriminate].
  - destruct (Py.starts_with p (c :: s)); [discriminate|].
    destruct (occ p s) as [k'|]; [|discriminate].
    eapply IH. reflexivity.
Qed.

Lemma insert_cons (x : item) (l : list item) :
  exists y l', insert x l = y :: l'.
Proof. destruct l as [|y l]; simpl; [eauto|]. destruct (item_ltb y x); eauto. Qed.

Lemma sort_nonempty (l : list item) : l <> [] -> sort l <> [].
Proof.
  destruct l as [|x l]; [congruence|]. intros _. simpl.
  destruct (insert_cons x (sort l)) as [y [l' ->]]. discriminate.
Qed.

Lemma add_formatting_total (ptext : text) :
  exists runs, add_formatting ptext = Ok runs.
Proof.
  unfold add_formatting.
  destruct (filter (fun n => Py.contains n ptext) startTags) as [|st res] eqn:E;
    [eauto|].
  assert (Hin : In st (filter (fun n => Py.contains n ptext) startTags))
    by (rewrite E; left; reflexivity).
  apply filter_In in Hin as [Hst Hc].
  destruct (sort (scan ptext (st :: res))) as [|[[b0 e0] s0] fp] eqn:Es; [|eauto].
  exfalso. revert Es. apply sort_nonempty. simpl.
  apply contains_true_occ in Hc as [k Hk].
  pose proof (finditer_aux_found st ptext
                (tag_like_nonempty st (startTags_tag_like st Hst)) k 0 Hk) as Hf.
  unfold Py.finditer. destruct (Py.finditer_aux st 0 ptext 0); [congruence|].
  discriminate.
Qed.

(** ** The paragraph splitting *)

Lemma split_paras_cons (d : text) :
  d <> [] -> exists p ps, split_paras d = p :: ps.
Proof.
  intros Hd. unfold split_paras.
  destruct (Py.contains (py "<br>") d); [apply split_aux_cons|].
  destruct (Py.contains (py "<p>") d).
  - destruct (split_aux_cons (py "<p>") d 0 []) as [p [ps E]].
    unfold Py.split. rewrite E. simpl. eauto.
  - apply splitlines_aux_cons. right. assumption.
Qed.

Lemma isNotBlank_Some (d : text) : isNotBlank (Some d) = true <-> d <> [].
Proof.
  simpl. rewrite negb_true_iff. split.
  - intros H ->. discriminate.
  - intros H. apply text_eqb_neq. assumption.
Qed.

Lemma more_paragraphs_total (others : list text) :
  exists ps,
    fold_right
      (fun p acc =>
         runs <- add_formatting p ;;
         ps <- acc ;;
         Ok (mkPar (py "DMUParagraph") runs :: ps))
      (Ok []) others = Ok ps.
Proof.
  induction others as [|p others [ps IH]]; simpl; [eauto|].
  destruct (add_formatting_total p) as [runs ->]. rewrite IH. simpl. eauto.
Qed.

Lemma description_part_total (d : text) :
  d <> [] -> exists r, description_part d = Ok r.
Proof.
  intros Hd. unfold description_part.
  destruct (split_paras_cons d Hd) as [p [ps ->]].
  destruct (add_formatting_total p) as [runs ->]. simpl.
  destruct (more_paragraphs_total ps) as [more ->]. simpl. eauto.
Qed.

(** ** The exceptions of the record loop *)

Lemma heading_branch_raises (st : State) (row : Row) (style : text) (e : exn) :
  heading_branch st row style = Raise e -> e = TypeError.
Proof.
  unfold heading_branch, add_formatting_field.
  destruct (name row) as [n|]; cbn [bind]; [|congruence].
  destruct (add_formatting_total n) as [runs ->]. cbn [bind].
  destruct (description row) as [d|].
  - destruct (notNullText (Some d)); [|discriminate].
    destruct (add_formatting_total d) as [runs' ->]. discriminate.
  - discriminate.
Qed.

Lemma unit_branch_raises (cfg : Config) (st : State) (row : Row)
      (style : text) (e : exn) :
  unit_branch cfg st row style = Raise e -> e = NameError "abbrv".
Proof.
  unfold unit_branch.
  destruct (pick_abbrv cfg st row) as [a|]; [|congruence].
  destruct (description row) as [d|]; [|discriminate].
  destruct (isNotBlank (Some d)) eqn:Hd; [|discriminate].
  destruct (negb (isLMU cfg)); [|discriminate].
  apply isNotBlank_Some in Hd.
  destruct (description_part_total d Hd) as [r ->]. discriminate.
Qed.

Lemma process_row_raises (cfg : Config) (st : State) (row : Row) (e : exn) :
  process_row cfg st row = Raise e ->
  e = AttributeError \/ e = TypeError \/ e = NameError "abbrv".
Proof.
  unfold process_row.
  destruct (paragraphstyle row) as [style|]; [|intros [= <-]; tauto].
  destruct (has style (py "DMU-Heading")).
  - intros H. apply heading_branch_raises in H. tauto.
  - destruct (has style (py "DMUUnit")); [|discriminate].
    intros H. apply unit_branch_raises in H. tauto.
Qed.

Lemma process_rows_raises (cfg : Config) (rows : list Row) :
  forall st e, process_rows cfg st rows = Raise e ->
  e = AttributeError \/ e = TypeError \/ e = NameError "abbrv".
Proof.
  induction rows as [|row rows IH]; intros st e; simpl; [discriminate|].
  destruct (process_row cfg st row) as [st'|e'] eqn:E; simpl.
  - apply IH.
  - intros [= <-]. eapply process_row_raises. eassumption.
Qed.

(** ** The flag [lastParaWasHeading] *)

(** The heading branch leaves the flag as it found it. *)
Lemma heading_branch_keeps_flag (st st' : State) (row : Row) (style : text) :
  heading_branch st row style = Ok st' ->
  lastParaWasHeading st' = lastParaWasHeading st.
Proof.
  unfold heading_branch.
  destruct (add_formatting_field (name row)) as [runs|e]; cbn [bind];
    [|discriminate].
  destruct (notNullText (description row)).
  - destruct (add_formatting_field (description row)) as [runs'|e];
      cbn [bind]; [|discriminate].
    intros [= <-]. reflexivity.
  - intros [= <-]. reflexivity.
Qed.

(** The unit branch sets it from the style of the unit row itself. *)
Lemma unit_branch_sets_flag (cfg : Config) (st st' : State) (row : Row)
      (style : text) :
  unit_branch cfg st row style = Ok st' ->
  lastParaWasHeading st' = has style (py "Head").
Proof.
  unfold unit_branch.
  destruct (pick_abbrv cfg st row) as [a|]; [|discriminate].
  match goal with
  | |- bind ?m _ = _ -> _ => destruct m as [desc|e]; cbn [bind]
  end; [|discriminate].
  intros [= <-]. reflexivity.
Qed.

(** ** Splitting and joining *)

Lemma split_aux_skip (sep x Y : text) :
  forall cur, Py.split_aux sep (length x) cur (x ++ Y) = Py.split_aux sep 0 cur Y.
Proof. induction x as [|c x IH]; intros cur; simpl; [reflexivity|apply IH]. Qed.

Lemma starts_with_app (p : text) :
  forall s, Py.starts_with p s = true -> exists Y, s = p ++ Y.
Proof.
  induction p as [|x p IH]; intros s H; [exists s; reflexivity|].
  destruct s as [|y s]; [discriminate|]. simpl in H.
  apply andb_true_iff in H as [Hx Hp]. apply N.eqb_eq in Hx. subst y.
  destruct (IH s Hp) as [Y ->]. exists Y. reflexivity.
Qed.

Lemma join_cons (sep x : text) (l : list text) :
  l <> [] -> Py.join sep (x :: l) = x ++ sep ++ Py.join sep l.
Proof. destruct l; [congruence|reflexivity]. Qed.

(** Joining the pieces of [split] with the separator gives the text back. *)
Lemma split_aux_join (sep : text) :
  sep <> [] ->
  forall n s, (length s <= n)%nat ->
  forall cur, Py.join sep (Py.split_aux sep 0 cur s) = rev cur ++ s.
Proof.
  intros Hsep. induction n as [|n IH]; intros s Hn cur.
  - destruct s; [|simpl in Hn; lia]. simpl. rewrite app_nil_r. reflexivity.
  - destruct s as [|c s]; [simpl; rewrite app_nil_r; reflexivity|].
    simpl in Hn.
    change (Py.split_aux sep 0 cur (c :: s))
      with (if Py.starts_with sep (c :: s)
            then rev cur :: Py.split_aux sep (length sep - 1) [] s
            else Py.split_aux sep 0 (c :: cur) s).
    destruct (Py.starts_with sep (c :: s)) eqn:E.
    + destruct (starts_with_app _ _ E) as [Y HY].
      destruct sep as [|x sep']; [congruence|].
      injection HY as <- ->.
      replace (length (c :: sep') - 1)%nat with (length sep') by (simpl; lia).
      rewrite split_aux_skip.
      destruct (split_aux_cons (c :: sep') Y 0 []) as [p [ps Hp]].
      rewrite join_cons by (rewrite Hp; discriminate).
      rewrite IH by (rewrite length_app in Hn; lia).
      reflexivity.
    + rewrite IH by lia. simpl. rewrite <- app_assoc. reflexivity.
Qed.

Lemma split_join (s sep : text) :
  sep <> [] -> Py.join sep (Py.split s sep) = s.
Proof.
  intros H. unfold Py.split.
  rewrite (split_aux_join sep H (length s)) by lia. reflexivity.
Qed.

(** No line of [splitlines] holds a line boundary. *)
Lemma splitlines_aux_clean (n : nat) :
  forall s cur,
    (length s <= n)%nat ->
    forallb (fun c => negb (Py.is_linebreak c)) cur = true ->
    Forall (fun p => forallb (fun c => negb (Py.is_linebreak c)) p = true)
           (Py.splitlines_aux cur s).
Proof.
  assert (Hrev : forall cur,
             forallb (fun c => negb (Py.is_linebreak c)) cur = true ->
             forallb (fun c => negb (Py.is_linebreak c)) (rev cur) = true).
  { intros cur H. apply forallb_forall. intros c Hc.
    apply in_rev in Hc. revert c Hc. apply forallb_forall. exact H. }
  induction n as [|n IH]; intros s cur Hn Hcur.
  - destruct s; [|simpl in Hn; lia]. simpl.
    destruct cur; repeat constructor. apply Hrev. exact Hcur.
  - destruct s as [|c s].
    { simpl. destruct cur; repeat constructor. apply Hrev. exact Hcur. }
    simpl in Hn.
    change (Py.splitlines_aux cur (c :: s))
      with (if Py.is_linebreak c
            then match s with
                 | d :: s'' =>
                     if N.eqb c 13 && N.eqb d 10
                     then rev cur :: Py.splitlines_aux [] s''
                     else rev cur :: Py.splitlines_aux [] s
                 | [] => [rev cur]
                 end
            else Py.splitlines_aux (c :: cur) s).
    destruct (Py.is_linebreak c) eqn:E.
    + destruct s as [|d s'']; [repeat constructor; apply Hrev; exact Hcur|].
      simpl in Hn.
      destruct (N.eqb c 13 && N.eqb d 10);
        (constructor; [apply Hrev; exact Hcur|]);
        apply IH; simpl; try lia; reflexivity.
    + apply IH; [lia|]. simpl. rewrite E. exact Hcur.
Qed.

(** ** Occurrences, and what a split is *)

Lemma starts_with_self_app (p Y : text) : Py.starts_with p (p ++ Y) = true.
Proof.
  induction p as [|x p IH]; simpl; [reflexivity|].
  rewrite N.eqb_refl. exact IH.
Qed.

Lemma occ_occurs (p s : text) : occ p s <> None <-> occurs p s.
Proof.
  split.
  - induction s as [|c s IH]; simpl.
    + destruct (Py.starts_with p []) eqn:E; [|congruence].
      intros _. apply starts_with_app in E as [Y E].
      exists [], Y. exact E.
    + destruct (Py.starts_with p (c :: s)) eqn:E.
      * intros _. apply starts_with_app in E as [Y E].
        exists [], Y. exact E.
      * intros H. destruct (occ p s) as [k|]; [|simpl in H; congruence].
        destruct IH as [a [b Hab]]; [discriminate|].
        exists (c :: a), b. rewrite Hab. reflexivity.
  - intros [a [b ->]]. induction a as [|c a IH].
    + assert (E := starts_with_self_app p b).
      change ([] ++ p ++ b) with (p ++ b).
      destruct (p ++ b) as [|x l]; simpl; rewrite E; discriminate.
    + change ((c :: a) ++ p ++ b) with (c :: (a ++ p ++ b)).
      cbn [occ]. destruct (Py.starts_with p (c :: a ++ p ++ b));
        [discriminate|].
      destruct (occ p (a ++ p ++ b)); [discriminate|contradiction].
Qed.

Lemma contains_occurs (p s : text) : Py.contains p s = true <-> occurs p s.
Proof.
  rewrite <- occ_occurs. split.
  - intros H. apply contains_true_occ in H as [k ->]. discriminate.
  - intros H. destruct (Py.contains p s) eqn:E; [reflexivity|].
    apply contains_occ in E. contradiction.
Qed.

Lemma not_contains_occurs (p s : text) :
  Py.contains p s = false <-> ~ occurs p s.
Proof.
  rewrite <- contains_occurs. destruct (Py.contains p s); split; intros H;
    congruence.
Qed.

Lemma app_eq_length {A : Type} (a b x y : list A) :
  length a = length b -> a ++ x = b ++ y -> a = b /\ x = y.
Proof.
  revert b. induction a as [|c a IH]; intros [|d b] Hl H;
    try discriminate; [auto|].
  injection H as -> H. injection Hl as Hl.
  destruct (IH b Hl H) as [-> ->]. auto.
Qed.

(** No piece of a split holds the separator. While a piece is read, no
    occurrence of the separator begins in the part already read. *)
Lemma split_aux_free (sep : text) :
  sep <> [] ->
  forall s skip cur,
    (skip = O -> forall a b, rev cur ++ s = a ++ sep ++ b ->
                             (length cur <= length a)%nat) ->
    (skip <> O -> cur = []) ->
    Forall (fun p => ~ occurs sep p) (Py.split_aux sep skip cur s).
Proof.
  intros Hsep.
  assert (Hlen : (0 < length sep)%nat)
    by (destruct sep; [congruence|simpl; lia]).
  assert (Hnil : ~ occurs sep []).
  { intros [a [b H]]. apply (f_equal (@length char)) in H.
    rewrite !length_app in H. simpl in H. lia. }
  induction s as [|c s IH]; intros skip cur H0 Hk.
  - cbn [Py.split_aux]. constructor; [|constructor].
    destruct skip as [|k].
    + intros [a [b H]].
      assert (Hc := H0 eq_refl a b). rewrite app_nil_r in Hc.
      specialize (Hc H). apply (f_equal (@length char)) in H.
      rewrite !length_app, length_rev in H. lia.
    + rewrite Hk by discriminate. exact Hnil.
  - cbn [Py.split_aux]. destruct skip as [|k].
    + destruct (Py.starts_with sep (c :: s)) eqn:E.
      * constructor.
        -- intros [a [b H]].
           assert (Hc := H0 eq_refl a (b ++ c :: s)).
           rewrite H, <- !app_assoc in Hc. specialize (Hc eq_refl).
           apply (f_equal (@length char)) in H.
           rewrite !length_app, length_rev in H. lia.
        -- apply IH; [intros _ a b _; simpl; lia|reflexivity].
      * apply IH; [|congruence].
        intros _ a b H. cbn [rev] in H. rewrite <- app_assoc in H.
        cbn [app] in H. specialize (H0 eq_refl a b H).
        cbn [length].
        destruct (Nat.eq_dec (length cur) (length a)) as [Heq|]; [|lia].
        rewrite <- length_rev in Heq.
        destruct (app_eq_length _ _ _ _ Heq H) as [_ Hs].
        rewrite Hs, starts_with_self_app in E. discriminate.
    + rewrite Hk by discriminate.
      apply IH; [intros _ a b _; simpl; lia|reflexivity].
Qed.

Lemma split_free (s sep : text) :
  sep <> [] -> Forall (fun p => ~ occurs sep p) (Py.split s sep).
Proof.
  intros H. apply split_aux_free;
    [exact H|intros _ a b _; simpl; lia|reflexivity].
Qed.

(** Replacing by nothing puts the pieces of the split together. *)
Lemma replace_aux_concat (old : text) (s : text) :
  forall skip cur,
    rev cur ++ Py.replace_aux old [] skip s
    = concat (Py.split_aux old skip cur s).
Proof.
  induction s as [|c s IH]; intros skip cur.
  - cbn [Py.replace_aux Py.split_aux concat]. reflexivity.
  - cbn [Py.replace_aux Py.split_aux]. destruct skip as [|k]; [|apply IH].
    destruct (Py.starts_with old (c :: s)).
    + cbn [concat app]. f_equal. apply (IH _ []).
    + rewrite <- IH. cbn [rev]. rewrite <- app_assoc. reflexivity.
Qed.

Lemma replace_stripped (old raw : text) :
  old <> [] -> stripped old raw (Py.replace raw old []).
Proof.
  intros H. exists (Py.split raw old). split; [|split].
  - apply split_join. exact H.
  - apply split_free. exact H.
  - apply (replace_aux_concat old raw 0%nat []).
Qed.

Lemma is_linebreak_boundary (c : char) :
  Py.is_linebreak c = true <-> In c boundary_chars.
Proof.
  unfold Py.is_linebreak, boundary_chars. rewrite existsb_exists. split.
  - intros [x [Hx E]]. apply N.eqb_eq in E. subst x. exact Hx.
  - intros H. exists c. split; [exact H|apply N.eqb_refl].
Qed.

Lemma boundary_free_snoc (p : text) (c : char) :
  boundary_free p -> Py.is_linebreak c = false -> boundary_free (p ++ [c]).
Proof.
  intros Hp Hc x Hx Hin. apply in_app_or in Hin as [Hin|[<-|[]]].
  - exact (Hp x Hx Hin).
  - apply is_linebreak_boundary in Hx. congruence.
Qed.

(** The lines of [splitlines] are the lines of the text. *)
Lemma splitlines_aux_cut (n : nat) :
  forall s cur,
    (length s <= n)%nat ->
    boundary_free (rev cur) ->
    cut_lines (rev cur ++ s) (Py.splitlines_aux cur s).
Proof.
  induction n as [|n IH]; intros s cur Hn Hcur.
  - destruct s as [|c s]; [|simpl in Hn; lia].
    rewrite app_nil_r. cbn [Py.splitlines_aux].
    destruct cur as [|x cur]; [constructor|].
    constructor; [|exact Hcur].
    cbn [rev]. destruct (rev cur); discriminate.
  - destruct s as [|c s].
    + rewrite app_nil_r. cbn [Py.splitlines_aux].
      destruct cur as [|x cur]; [constructor|].
      constructor; [|exact Hcur].
      cbn [rev]. destruct (rev cur); discriminate.
    + cbn [Py.splitlines_aux]. cbn [length] in Hn.
      destruct (Py.is_linebreak c) eqn:Ec.
      * assert (Hb : In [c] line_boundaries).
        { right. apply (in_map (fun x : char => [x])).
          apply is_linebreak_boundary. exact Ec. }
        destruct s as [|d s'].
        -- apply (cut_line (rev cur) [c] [] []);
             [exact Hcur|exact Hb|intros _ r; discriminate|constructor].
        -- destruct (N.eqb c 13 && N.eqb d 10) eqn:E.
           ++ apply andb_true_iff in E as [E1 E2].
              apply N.eqb_eq in E1, E2. subst c d.
              apply (cut_line (rev cur) [13%N; 10%N] s');
                [exact Hcur|left; reflexivity|discriminate|].
              apply (IH s' []); [cbn [length] in Hn; lia|].
              intros x _ [].
           ++ apply (cut_line (rev cur) [c] (d :: s'));
                [exact Hcur|exact Hb| |].
              ** intros Hc r Hr. injection Hc as ->. injection Hr as -> _.
                 discriminate E.
              ** apply (IH (d :: s') []); [lia|]. intros x _ [].
      * replace (rev cur ++ c :: s) with (rev (c :: cur) ++ s)
          by (cbn [rev]; rewrite <- app_assoc; reflexivity).
        apply IH; [lia|]. cbn [rev].
        apply boundary_free_snoc; assumption.
Qed.

Lemma splitlines_cut (s : text) : cut_lines s (Py.splitlines s).
Proof.
  apply (splitlines_aux_cut (length s) s []); [lia|]. intros x _ [].
Qed.

(** ** Splitting, sentinels and the last branch *)

(** C6: the splitting of a description takes the first rule that applies.
    A text in which ['<br>'] occurs is split on it alone: the paragraphs
    joined with ['<br>'] are the text, and ['<br>'] occurs in none of them.
    Else a text in which ['<p>'] occurs is split on it in the same way, and
    each piece is then given with every occurrence of ['</p>'] taken out.
    Else the paragraphs are the lines of the text, cut at its line
    boundaries. *)
Theorem split_paras_priority (d : text) :
  (occurs (py "<br>") d ->
   split_paras d = Py.split d (py "<br>")
   /\ Py.join (py "<br>") (split_paras d) = d
   /\ Forall (fun p => ~ occurs (py "<br>") p) (split_paras d))
  /\ (~ occurs (py "<br>") d ->
      occurs (py "<p>") d ->
      exists raw,
        Py.join (py "<p>") raw = d
        /\ Forall (fun r => ~ occurs (py "<p>") r) raw
        /\ Forall2 (stripped (py "</p>")) raw (split_paras d))
  /\ (~ occurs (py "<br>") d ->
      ~ occurs (py "<p>") d ->
      split_paras d = Py.splitlines d
      /\ cut_lines d (split_paras d)).
Proof.
  unfold split_paras. split; [|split].
  - intros H. apply contains_occurs in H. rewrite H.
    split; [reflexivity|].
    split; [apply split_join|apply split_free]; discriminate.
  - intros Hb Hp. apply not_contains_occurs in Hb.
    apply contains_occurs in Hp. rewrite Hb, Hp.
    exists (Py.split d (py "<p>")).
    split; [apply split_join; discriminate|].
    split; [apply split_free; discriminate|].
    induction (Py.split d (py "<p>")) as [|r raw IH]; simpl; constructor;
      [apply replace_stripped; discriminate|exact IH].
  - intros Hb Hp. apply not_contains_occurs in Hb, Hp. rewrite Hb, Hp.
    split; [reflexivity|apply splitlines_cut].
Qed.

Lemma split_paras_priority_witness :
  (split_paras (py "<b>Basalt</b> flows<br>locally<p>vesicular<br>")
   = [py "<b>Basalt</b> flows"; py "locally<p>vesicular"; []])
  /\ (exists raw,
         Py.join (py "<p>") raw = py "Basalt</p><p>flows</p>, </p>tuff"
         /\ Forall (fun r => ~ occurs (py "<p>") r) raw
         /\ Forall2 (stripped (py "</p>")) raw [py "Basalt"; py "flows, tuff"])
  /\ cut_lines (py "Basalt" ++ 13%N :: 10%N :: py "flows" ++ [11%N])
               [py "Basalt"; py "flows"].
Proof.
  split; [|split].
  - destruct (proj1 (split_paras_priority
                       (py "<b>Basalt</b> flows<br>locally<p>vesicular<br>")))
      as [H _];
      [exists (py "<b>Basalt</b> flows"), (py "locally<p>vesicular<br>");
       reflexivity|].
    rewrite H. reflexivity.
  - apply (proj1 (proj2 (split_paras_priority
                           (py "Basalt</p><p>flows</p>, </p>tuff")))).
    + apply not_contains_occurs. reflexivity.
    + exists (py "Basalt</p>"), (py "flows</p>, </p>tuff"). reflexivity.
  - apply (proj2 (proj2 (split_paras_priority
                           (py "Basalt" ++ 13%N :: 10%N :: py "flows"
                               ++ [11%N])))
             ltac:(apply not_contains_occurs; reflexivity)
             ltac:(apply not_contains_occurs; reflexivity)).
Defined.

(** C7: the splitting runs under [isNotBlank], and there it yields at least
    one piece, and the text itself as the only piece when the text holds no
    ['<br>'], no ['<p>'] and no line boundary; the loop body never raises an
    [IndexError], so [paras[0]] is in bounds for every row. *)
Theorem split_paras_first_in_bounds :
  (forall d, isNotBlank (Some d) = true ->
             exists p ps, split_paras d = p :: ps)
  /\ (forall d, isNotBlank (Some d) = true ->
                Py.contains (py "<br>") d = false ->
                Py.contains (py "<p>") d = false ->
                forallb (fun c => negb (Py.is_linebreak c)) d = true ->
                split_paras d = [d])
  /\ (forall cfg st row, process_row cfg st row <> Raise IndexError).
Proof.
  repeat split.
  - intros d Hd. apply split_paras_cons, isNotBlank_Some, Hd.
  - intros d Hd Hbr Hp Hl. unfold split_paras. rewrite Hbr, Hp.
    unfold Py.splitlines. rewrite splitlines_aux_single; [reflexivity|assumption|].
    right. apply isNotBlank_Some, Hd.
  - intros cfg st row H. apply process_row_raises in H.
    destruct H as [H|[H|H]]; discriminate.
Qed.

Lemma split_paras_first_in_bounds_witness :
  (exists p ps, split_paras (py "Basalt flows<br>") = p :: ps)
  /\ split_paras (py "Basalt flows") = [py "Basalt flows"].
Proof.
  split.
  - apply (proj1 split_paras_first_in_bounds). reflexivity.
  - apply (proj1 (proj2 split_paras_first_in_bounds)); reflexivity.
Defined.





(** C10: a [sys.argv] entry is a string and never equals the integer 3, so
    the script never reaches [print(Null)]: it does not end in a
    [NameError] on [Null], whatever its arguments and rows. *)
Theorem null_branch_unreachable :
  (forall a4 : text, py_eq (PStr a4) (PInt 3) = false)
  /\ (forall argv rows, main argv rows <> Raise (NameError "Null")).
Proof.
  split; [reflexivity|].
  intros argv rows H. unfold main in H.
  repeat match type of H with
         | bind ?m _ = _ =>
             let E := fresh "E" in
             destruct m eqn:E; cbn [bind] in H; [|try discriminate]
         end;
    try discriminate; try (injection H as ->).
  all: try match goal with
    | E : process_rows _ _ _ = Raise _ |- _ =>
        apply process_rows_raises in E; destruct E as [E|[E|E]]; discriminate
    end.
  all: unfold arg, next, getattr_lower in *.
  all: repeat match goal with
         | E : context [if ?c then _ else _] |- _ => destruct c
         | E : context [match ?x with _ => _ end] |- _ => destruct x
         end; discriminate.
Qed.

(** ** Occurrences of a tag in a text *)

(** A pattern without ['<'] that begins before a ['<'] ends before it. *)
Lemma starts_with_app_lt (pat : text) :
  ~ In lt_sign pat ->
  forall a b, Py.starts_with pat (a ++ lt_sign :: b) = Py.starts_with pat a.
Proof.
  induction pat as [|x pat IH]; intros Hpat a b; [reflexivity|].
  destruct a as [|y a]; simpl.
  - destruct (N.eqb x lt_sign) eqn:E; [|reflexivity].
    apply N.eqb_eq in E. exfalso. apply Hpat. left. assumption.
  - rewrite IH; [reflexivity|]. intros H. apply Hpat. right. assumption.
Qed.

Lemma starts_with_tag_app (p a r : text) :
  tag_like p -> lt_headed r -> a <> [] ->
  Py.starts_with p (a ++ r) = Py.starts_with p a.
Proof.
  intros [p' [-> Hp']] [->|[r' ->]] Ha.
  - rewrite app_nil_r. reflexivity.
  - destruct a as [|y a]; [congruence|]. simpl.
    rewrite starts_with_app_lt by assumption. reflexivity.
Qed.

Lemma starts_with_not_lt (p : text) (c : char) (s : text) :
  tag_like p -> c <> lt_sign -> Py.starts_with p (c :: s) = false.
Proof.
  intros [p' [-> _]] Hc. cbn [Py.starts_with].
  destruct (N.eqb lt_sign c) eqn:E; [|reflexivity].
  apply N.eqb_eq in E. congruence.
Qed.

Lemma starts_with_nil (p : text) : tag_like p -> Py.starts_with p [] = false.
Proof. intros [p' [-> _]]. reflexivity. Qed.

Lemma occ_nil (p : text) : tag_like p -> occ p [] = None.
Proof. intros Hp. simpl. rewrite starts_with_nil by assumption. reflexivity. Qed.

Lemma occ_cons_None (p : text) (c : char) (s : text) :
  occ p (c :: s) = None ->
  Py.starts_with p (c :: s) = false /\ occ p s = None.
Proof.
  simpl. destruct (Py.starts_with p (c :: s)); [discriminate|].
  destruct (occ p s); [discriminate|]. tauto.
Qed.

Lemma occ_here (p s : text) : Py.starts_with p s = true -> occ p s = Some O.
Proof. intros H. destruct s; simpl; rewrite H; reflexivity. Qed.

Lemma occ_step (p : text) (c : char) (s : text) :
  Py.starts_with p (c :: s) = false ->
  occ p (c :: s) = option_map S (occ p s).
Proof. intros H. simpl. rewrite H. reflexivity. Qed.

Lemma shift_shift (n m : nat) (o : option nat) :
  shift n (shift m o) = shift (n + m) o.
Proof. destruct o; simpl; [f_equal; lia|reflexivity]. Qed.

Lemma shift_0 (o : option nat) : shift 0 o = o.
Proof. destruct o; reflexivity. Qed.

Lemma shift_S (n : nat) (o : option nat) :
  option_map S (shift n o) = shift (S n) o.
Proof. destruct o; reflexivity. Qed.

Lemma occ_pass_nolt (p x Y : text) :
  tag_like p -> ~ In lt_sign x -> occ p (x ++ Y) = shift (length x) (occ p Y).
Proof.
  intros Hp. induction x as [|c x IH]; intros Hx.
  - symmetry. apply shift_0.
  - rewrite <- app_comm_cons, occ_step.
    + rewrite IH by (intros H; apply Hx; right; assumption).
      apply shift_S.
    + apply starts_with_not_lt; [assumption|].
      intros ->. apply Hx. left. reflexivity.
Qed.

Lemma occ_free (p a r : text) :
  tag_like p -> lt_headed r -> occ p a = None ->
  occ p (a ++ r) = shift (length a) (occ p r).
Proof.
  intros Hp Hr. induction a as [|c a IH]; intros Ha.
  - symmetry. apply shift_0.
  - apply occ_cons_None in Ha as [Hc Ha].
    rewrite <- app_comm_cons, occ_step.
    + rewrite IH by assumption. apply shift_S.
    + rewrite app_comm_cons, starts_with_tag_app; try assumption. discriminate.
Qed.

Lemma occ_pass_tag (p x Y : text) :
  tag_like p -> tag_like x -> Py.starts_with p (x ++ Y) = false ->
  occ p (x ++ Y) = shift (length x) (occ p Y).
Proof.
  intros Hp [x' [-> Hx']] H.
  rewrite <- app_comm_cons in *. rewrite occ_step by assumption.
  rewrite occ_pass_nolt by assumption. apply shift_S.
Qed.

(** The same for the matches of [finditer]. *)

Lemma finditer_aux_skip (p x Y : text) :
  forall i, Py.finditer_aux p (length x) (x ++ Y) i
            = Py.finditer_aux p 0 Y (i + len x).
Proof.
  induction x as [|c x IH]; intros i.
  - simpl. f_equal. unfold len. simpl. lia.
  - simpl. rewrite IH. f_equal. unfold len. simpl length. lia.
Qed.

Lemma finditer_aux_step (p : text) (c : char) (s : text) (i : Z) :
  Py.starts_with p (c :: s) = false ->
  Py.finditer_aux p 0 (c :: s) i = Py.finditer_aux p 0 s (i + 1).
Proof. intros H. simpl. rewrite H. reflexivity. Qed.

Lemma len_cons (c : char) (s : text) : len (c :: s) = 1 + len s.
Proof. unfold len. simpl length. lia. Qed.

Lemma finditer_aux_pass_nolt (p x Y : text) :
  tag_like p -> ~ In lt_sign x ->
  forall i, Py.finditer_aux p 0 (x ++ Y) i = Py.finditer_aux p 0 Y (i + len x).
Proof.
  intros Hp. induction x as [|c x IH]; intros Hx i.
  - simpl. f_equal. unfold len. simpl. lia.
  - rewrite <- app_comm_cons, finditer_aux_step.
    + rewrite IH by (intros H; apply Hx; right; assumption).
      f_equal. rewrite len_cons. lia.
    + apply starts_with_not_lt; [assumption|].
      intros ->. apply Hx. left. reflexivity.
Qed.

Lemma finditer_aux_free (p a r : text) :
  tag_like p -> lt_headed r -> occ p a = None ->
  forall i, Py.finditer_aux p 0 (a ++ r) i = Py.finditer_aux p 0 r (i + len a).
Proof.
  intros Hp Hr. induction a as [|c a IH]; intros Ha i.
  - simpl. f_equal. unfold len. simpl. lia.
  - apply occ_cons_None in Ha as [Hc Ha].
    rewrite <- app_comm_cons, finditer_aux_step.
    + rewrite IH by assumption. f_equal. rewrite len_cons. lia.
    + rewrite app_comm_cons, starts_with_tag_app; try assumption. discriminate.
Qed.

Lemma finditer_aux_pass_tag (p x Y : text) (i : Z) :
  tag_like p -> tag_like x -> Py.starts_with p (x ++ Y) = false ->
  Py.finditer_aux p 0 (x ++ Y) i = Py.finditer_aux p 0 Y (i + len x).
Proof.
  intros Hp [x' [-> Hx']] H.
  rewrite <- app_comm_cons in *. rewrite finditer_aux_step by assumption.
  rewrite finditer_aux_pass_nolt by assumption.
  f_equal. rewrite len_cons. lia.
Qed.

Lemma finditer_aux_match (p Y : text) (i : Z) :
  tag_like p ->
  Py.finditer_aux p 0 (p ++ Y) i = i :: Py.finditer_aux p 0 Y (i + len p).
Proof.
  intros [p' [-> Hp']].
  change (Py.finditer_aux (lt_sign :: p') 0 ((lt_sign :: p') ++ Y) i)
    with (if Py.starts_with (lt_sign :: p') ((lt_sign :: p') ++ Y)
          then i :: Py.finditer_aux (lt_sign :: p')
                      (length (lt_sign :: p') - 1) (p' ++ Y) (i + 1)
          else Py.finditer_aux (lt_sign :: p') 0 (p' ++ Y) (i + 1)).
  rewrite starts_with_self_app. f_equal.
  replace (length (lt_sign :: p') - 1)%nat with (length p') by (simpl; lia).
  rewrite finditer_aux_skip. f_equal. rewrite len_cons. lia.
Qed.

Lemma finditer_aux_absent (p s : text) :
  occ p s = None -> forall i, Py.finditer_aux p 0 s i = [].
Proof.
  induction s as [|c s IH]; intros H i; [reflexivity|].
  apply occ_cons_None in H as [Hc Hs].
  rewrite finditer_aux_step by assumption. apply IH. assumption.
Qed.

(** ** The catalog on flat markup *)

Lemma open_vs_open (st : text) (k : stag) (Y : text) :
  In st startTags -> st <> stag_open k ->
  Py.starts_with st (stag_open k ++ Y) = false.
Proof.
  rewrite startTags_eq. intros H Hne.
  repeat (destruct H as [<-|H];
          [destruct k; first [reflexivity|exfalso; apply Hne; reflexivity]|]).
  contradiction.
Qed.

Lemma open_vs_close (st : text) (k : stag) (Y : text) :
  In st startTags -> Py.starts_with st (stag_close k ++ Y) = false.
Proof.
  rewrite startTags_eq. intros H.
  repeat (destruct H as [<-|H]; [destruct k; reflexivity|]).
  contradiction.
Qed.

Lemma close_vs_open (k : stag) (Y : text) :
  Py.starts_with (stag_close k) (stag_open k ++ Y) = false.
Proof. destruct k; reflexivity. Qed.

Lemma stag_open_tag_like (k : stag) : tag_like (stag_open k).
Proof. apply startTags_tag_like, stag_open_In. Qed.

Lemma lt_headed_tag (x Y : text) : tag_like x -> lt_headed (x ++ Y).
Proof. intros [x' [-> _]]. right. eexists. reflexivity. Qed.

Lemma lt_headed_spans (l : list span) : lt_headed (flat_map span_text l).
Proof.
  destruct l as [|s l]; [left; reflexivity|].
  simpl. unfold span_text. rewrite <- !app_assoc.
  apply lt_headed_tag, stag_open_tag_like.
Qed.

Lemma marker_free_occ (t st : text) :
  marker_free t -> In st startTags -> occ st t = None.
Proof. intros H Hst. apply contains_occ, H, Hst. Qed.

(** The matches of a start tag in a span and what follows it. *)
Lemma finditer_aux_span (st : text) (s : span) (R : text) (i : Z) :
  In st startTags -> span_ok s -> lt_headed R ->
  Py.finditer_aux st 0 (span_text s ++ R) i
  = (if Py.text_eqb (stag_open (sp_tag s)) st then [i] else [])
    ++ Py.finditer_aux st 0 R (i + len (span_text s)).
Proof.
  intros Hst [Hbody [Hafter _]] HR.
  pose proof (startTags_tag_like st Hst) as Hp.
  assert (Hrest :
    forall j, Py.finditer_aux st 0
                (sp_body s ++ stag_close (sp_tag s) ++ sp_after s ++ R) j
              = Py.finditer_aux st 0 R
                  (j + len (sp_body s) + len (stag_close (sp_tag s))
                   + len (sp_after s))).
  { intros j.
    rewrite finditer_aux_free;
      [|assumption|apply lt_headed_tag, stag_close_tag_like
       |apply marker_free_occ; assumption].
    rewrite finditer_aux_pass_tag;
      [|assumption|apply stag_close_tag_like|apply open_vs_close; assumption].
    rewrite finditer_aux_free;
      [|assumption|assumption|apply marker_free_occ; assumption].
    reflexivity. }
  unfold span_text. rewrite <- !app_assoc, !len_app.
  destruct (Py.text_eqb (stag_open (sp_tag s)) st) eqn:E.
  - apply text_eqb_eq in E. subst st.
    rewrite finditer_aux_match by (apply stag_open_tag_like).
    rewrite Hrest. cbn [app]. do 2 f_equal. lia.
  - rewrite finditer_aux_pass_tag;
      [|assumption|apply stag_open_tag_like|].
    + rewrite Hrest. cbn [app]. f_equal. lia.
    + apply open_vs_open; [assumption|].
      intros ->. rewrite text_eqb_refl in E. discriminate.
Qed.

Lemma skipn_len_app (pre X : text) : skipn (Z.to_nat (len pre)) (pre ++ X) = X.
Proof.
  unfold len. rewrite Nat2Z.id, skipn_app, skipn_all, Nat.sub_diag.
  reflexivity.
Qed.

(** The search for the end tag of a span from its start finds the end tag
    that closes it. *)
Lemma find_close (pre : text) (s : span) (R : text) :
  span_ok s ->
  Py.find (pre ++ span_text s ++ R) (stag_close (sp_tag s)) (len pre)
  = len pre + len (stag_open (sp_tag s)) + len (sp_body s).
Proof.
  intros [_ [_ Hbody]]. apply contains_occ in Hbody.
  unfold Py.find.
  pose proof (len_nonneg pre) as Hpre.
  destruct (Z.ltb_spec (len pre) 0) as [H|_]; [lia|].
  rewrite len_app.
  destruct (Z.ltb_spec (len pre + len (span_text s ++ R)) (len pre)) as [H|_].
  { pose proof (len_nonneg (span_text s ++ R)). lia. }
  rewrite skipn_len_app, occ_find_at.
  unfold span_text. rewrite <- !app_assoc.
  rewrite occ_pass_tag;
    [|apply stag_close_tag_like|apply stag_open_tag_like|apply close_vs_open].
  rewrite occ_free;
    [|apply stag_close_tag_like|apply lt_headed_tag, stag_close_tag_like
     |assumption].
  rewrite (occ_here _ _ (starts_with_self_app _ _)). simpl.
  unfold len. lia.
Qed.

(** ** [find_pos] on flat markup *)

Lemma scan_spans (st : text) (l : list span) :
  In st startTags -> Forall span_ok l ->
  forall pre,
    map (fun b => (b, Py.find (pre ++ flat_map span_text l) (endTag_of st) b, st))
        (Py.finditer_aux st 0 (flat_map span_text l) (len pre))
    = filter (fun it => Py.text_eqb (snd it) st) (items (len pre) l).
Proof.
  intros Hst Hl. induction Hl as [|s l Hs Hl IH]; intros pre; [reflexivity|].
  cbn [flat_map items filter snd].
  rewrite finditer_aux_span by (auto using lt_headed_spans).
  rewrite map_app.
  replace (len pre + len (span_text s)) with (len (pre ++ span_text s))
    by apply len_app.
  rewrite (app_assoc pre), IH.
  destruct (Py.text_eqb (stag_open (sp_tag s)) st) eqn:E; [|reflexivity].
  apply text_eqb_eq in E. subst st. cbn [map app].
  rewrite endTag_of_open, <- app_assoc, find_close by assumption.
  reflexivity.
Qed.

Lemma flat_map_ext_on {A B : Type} (f g : A -> list B) (l : list A) :
  (forall x, In x l -> f x = g x) -> flat_map f l = flat_map g l.
Proof.
  induction l as [|x l IH]; intros H; [reflexivity|]. simpl.
  rewrite (H x) by (left; reflexivity). f_equal.
  apply IH. intros y Hy. apply H. right. assumption.
Qed.

Lemma flat_map_filter_skip {A B : Type} (q : A -> bool) (f : A -> list B)
      (l : list A) :
  (forall x, In x l -> q x = false -> f x = []) ->
  flat_map f (filter q l) = flat_map f l.
Proof.
  induction l as [|x l IH]; intros H; [reflexivity|]. simpl.
  destruct (q x) eqn:E; simpl.
  - rewrite IH; [reflexivity|]. intros y Hy. apply H. right. assumption.
  - rewrite (H x) by (auto; left; reflexivity). simpl.
    apply IH. intros y Hy. apply H. right. assumption.
Qed.

(** Before sorting, [find_pos] holds the entries of the spans, tag by tag. *)
Lemma scan_flat (before : text) (l : list span) :
  marker_free before -> Forall span_ok l ->
  scan (flat_text before l)
       (filter (fun n => Py.contains n (flat_text before l)) startTags)
  = flat_map (fun st => filter (fun it => Py.text_eqb (snd it) st)
                               (items (len before) l))
             startTags.
Proof.
  intros Hb Hl. unfold scan.
  rewrite flat_map_filter_skip.
  - apply flat_map_ext_on. intros st Hst. unfold Py.finditer, flat_text.
    rewrite finditer_aux_free;
      [|apply startTags_tag_like; assumption|apply lt_headed_spans
       |apply marker_free_occ; assumption].
    apply scan_spans; assumption.
  - intros st Hst Hc. apply contains_occ in Hc. unfold Py.finditer.
    rewrite finditer_aux_absent by assumption. reflexivity.
Qed.

Lemma filter_split_perm {A : Type} (q : A -> bool) (l : list A) :
  Permutation (filter q l ++ filter (fun x => negb (q x)) l) l.
Proof.
  induction l as [|x l IH]; [constructor|]. simpl.
  destruct (q x); simpl.
  - constructor. exact IH.
  - apply Permutation_sym, Permutation_cons_app, Permutation_sym, IH.
Qed.

(** Grouping entries by tag only reorders them. *)
Lemma group_by_tag_perm (keys : list text) :
  NoDup keys ->
  forall L : list item,
    (forall it, In it L -> In (snd it) keys) ->
    Permutation
      (flat_map (fun k => filter (fun it => Py.text_eqb (snd it) k) L) keys) L.
Proof.
  induction 1 as [|k keys Hk Hnd IH]; intros L HL.
  - destruct L as [|it L]; [constructor|].
    destruct (HL it (or_introl eq_refl)).
  - cbn [flat_map].
    set (L' := filter (fun it => negb (Py.text_eqb (snd it) k)) L).
    apply Permutation_trans
      with (filter (fun it => Py.text_eqb (snd it) k) L ++ L');
      [|apply filter_split_perm].
    apply Permutation_app_head.
    rewrite (flat_map_ext_on _
               (fun k' => filter (fun it => Py.text_eqb (snd it) k') L')).
    + apply IH. intros it Hit. apply filter_In in Hit as [Hit Hne].
      destruct (HL it Hit) as [Heq|Hin]; [|assumption].
      rewrite <- Heq, text_eqb_refl in Hne. discriminate.
    + intros k' Hk'. unfold L'. clear -Hk Hk'.
      induction L as [|it L IHL]; [reflexivity|]. simpl.
      destruct (Py.text_eqb (snd it) k') eqn:E1;
        destruct (Py.text_eqb (snd it) k) eqn:E2; simpl; rewrite ?E1;
        try (f_equal; exact IHL); try exact IHL.
      apply text_eqb_eq in E1, E2. congruence.
Qed.

Lemma startTags_NoDup : NoDup startTags.
Proof.
  rewrite startTags_eq.
  repeat (constructor;
          [intros H; repeat (destruct H as [H|H]; [discriminate H|]); exact H|]).
  constructor.
Qed.

(** ** Sorting entries with distinct [begin] *)

Lemma item_ltb_begin (a b : item) :
  by_begin a b -> item_ltb a b = true /\ item_ltb b a = false.
Proof.
  destruct a as [[b1 e1] s1], b as [[b2 e2] s2].
  unfold by_begin, begin_of. simpl. intros H.
  destruct (Z.ltb_spec b1 b2); [|lia].
  destruct (Z.ltb_spec b2 b1); [lia|]. tauto.
Qed.

Lemma insert_middle (x : item) (L1 L2 : list item) :
  Forall (fun y => by_begin y x) L1 -> Forall (by_begin x) L2 ->
  insert x (L1 ++ L2) = L1 ++ x :: L2.
Proof.
  intros H1 H2. induction H1 as [|y L1 Hy H1 IH]; simpl.
  - destruct H2 as [|y L2 Hy H2]; [reflexivity|]. simpl.
    rewrite (proj2 (item_ltb_begin _ _ Hy)). reflexivity.
  - rewrite (proj1 (item_ltb_begin _ _ Hy)), IH. reflexivity.
Qed.

Lemma by_begin_trans (a b c : item) : by_begin a b -> by_begin b c -> by_begin a c.
Proof. unfold by_begin. lia. Qed.

Lemma sorted_middle (x : item) (L1 L2 : list item) :
  StronglySorted by_begin (L1 ++ x :: L2) ->
  Forall (fun y => by_begin y x) L1 /\ Forall (by_begin x) L2
  /\ StronglySorted by_begin (L1 ++ L2).
Proof.
  induction L1 as [|y L1 IH]; simpl; intros H;
    apply StronglySorted_inv in H as [Hs Hf].
  - auto.
  - destruct (IH Hs) as [H1 [H2 H3]].
    apply Forall_app in Hf as [Hf1 Hf2].
    repeat split.
    + constructor; [|assumption]. apply Forall_inv in Hf2. assumption.
    + assumption.
    + constructor; [assumption|]. apply Forall_app. split; [assumption|].
      apply Forall_inv_tail in Hf2. assumption.
Qed.

(** Sorting a reordering of a list that ascends in [begin] gives that
    list. *)
Lemma sort_perm_sorted (l : list item) :
  forall L, Permutation l L -> StronglySorted by_begin L -> sort l = L.
Proof.
  induction l as [|x l IH]; intros L HP HS.
  - apply Permutation_nil in HP. subst. reflexivity.
  - assert (Hin : In x L) by (eapply Permutation_in; [exact HP|left; reflexivity]).
    apply in_split in Hin as [L1 [L2 ->]].
    apply Permutation_cons_app_inv in HP.
    apply sorted_middle in HS as [H1 [H2 HS]].
    simpl. rewrite (IH _ HP HS). apply insert_middle; assumption.
Qed.

Lemma len_span_text_pos (s : span) : 0 < len (span_text s).
Proof.
  unfold span_text. rewrite len_app.
  pose proof (len_nonneg (sp_body s ++ stag_close (sp_tag s) ++ sp_after s)).
  destruct (stag_open_tag_like (sp_tag s)) as [x [-> _]].
  rewrite len_cons. pose proof (len_nonneg x). lia.
Qed.

Lemma items_begin_ge (l : list span) :
  forall off, Forall (fun it => off <= begin_of it) (items off l).
Proof.
  induction l as [|s l IH]; intros off; simpl; constructor.
  - unfold begin_of. simpl. lia.
  - eapply Forall_impl; [|apply IH]. simpl. intros it H.
    pose proof (len_span_text_pos s). lia.
Qed.

Lemma items_sorted (l : list span) :
  forall off, StronglySorted by_begin (items off l).
Proof.
  induction l as [|s l IH]; intros off; simpl; constructor.
  - apply IH.
  - eapply Forall_impl; [|apply items_begin_ge]. simpl. intros it H.
    unfold by_begin, begin_of. simpl.
    pose proof (len_span_text_pos s). unfold begin_of in H. lia.
Qed.

Lemma items_tags (l : list span) :
  forall off it, In it (items off l) -> In (snd it) startTags.
Proof.
  induction l as [|s l IH]; intros off it; simpl; [tauto|].
  intros [<-|H]; [apply stag_open_In|eapply IH; eassumption].
Qed.

(** [find_pos] of a flat text. *)
Lemma find_pos_flat (before : text) (l : list span) :
  marker_free before -> Forall span_ok l ->
  sort (scan (flat_text before l)
             (filter (fun n => Py.contains n (flat_text before l)) startTags))
  = items (len before) l.
Proof.
  intros Hb Hl. rewrite scan_flat by assumption.
  apply sort_perm_sorted; [|apply items_sorted].
  apply group_by_tag_perm; [apply startTags_NoDup|].
  intros it. apply items_tags.
Qed.

(** ** The runs of flat markup *)

Lemma slice_mid (A B C : text) (a b : Z) :
  a = len A -> b = len A + len B -> Py.slice (A ++ B ++ C) a b = B.
Proof.
  intros -> ->. unfold Py.slice, Py.clamp. rewrite !len_app.
  pose proof (len_nonneg A). pose proof (len_nonneg B).
  pose proof (len_nonneg C).
  destruct (Z.ltb_spec (len A) 0); [lia|].
  destruct (Z.ltb_spec (len A + len B) 0); [lia|].
  rewrite !Z.min_l by lia.
  replace (len A + len B - len A) with (len B) by lia.
  rewrite skipn_len_app. unfold len. rewrite Nat2Z.id.
  rewrite firstn_app, firstn_all, Nat.sub_diag. simpl.
  apply app_nil_r.
Qed.

Lemma tagged_run_open (k : stag) (body : text) :
  tagged_run (stag_open k) body = [mkRun body (stag_fmt k)].
Proof. destruct k; reflexivity. Qed.

Lemma next_begin (pre : text) (s : span) (l : list span) :
  match items (len pre + len (span_text s)) l with
  | (b', _, _) :: _ => b'
  | [] => len (pre ++ span_text s ++ flat_map span_text l)
  end = len pre + len (span_text s).
Proof.
  destruct l as [|s' l]; simpl; [|reflexivity].
  rewrite app_nil_r. apply len_app.
Qed.

(** The loop over [find_pos] adds the runs of the spans. *)
Lemma slicing_spans (l : list span) :
  forall pre,
    slicing (pre ++ flat_map span_text l) (items (len pre) l)
    = flat_map span_runs l.
Proof.
  induction l as [|s l IH]; intros pre; [reflexivity|].
  cbn [items flat_map slicing].
  rewrite endTag_of_open, next_begin, tagged_run_open.
  set (o := stag_open (sp_tag s)). set (c := stag_close (sp_tag s)).
  assert (E1 : pre ++ span_text s ++ flat_map span_text l
               = (pre ++ o) ++ sp_body s
                 ++ (c ++ sp_after s ++ flat_map span_text l)).
  { unfold span_text. rewrite <- !app_assoc. reflexivity. }
  assert (E2 : pre ++ span_text s ++ flat_map span_text l
               = (pre ++ o ++ sp_body s ++ c) ++ sp_after s
                 ++ flat_map span_text l).
  { unfold span_text. rewrite <- !app_assoc. reflexivity. }
  rewrite E1 at 1. rewrite slice_mid by (rewrite ?len_app; reflexivity).
  rewrite E2 at 1.
  rewrite slice_mid
    by (unfold span_text; fold o; fold c; rewrite ?len_app; lia).
  unfold span_runs. cbn [app]. f_equal. f_equal.
  replace (len pre + len (span_text s)) with (len (pre ++ span_text s))
    by apply len_app.
  rewrite (app_assoc pre). apply IH.
Qed.

Lemma filter_none {A : Type} (q : A -> bool) (l : list A) :
  (forall x, In x l -> q x = false) -> filter q l = [].
Proof.
  induction l as [|x l IH]; intros H; [reflexivity|]. simpl.
  rewrite (H x) by (left; reflexivity).
  apply IH. intros y Hy. apply H. right. assumption.
Qed.

(** A text without start tags is one plain run. *)
Lemma add_formatting_plain (t : text) :
  marker_free t -> add_formatting t = Ok [mkRun t Plain].
Proof.
  intros H. unfold add_formatting. rewrite filter_none; [reflexivity|].
  exact H.
Qed.

(** The runs of a flat text with at least one span. *)
Lemma add_formatting_spans (before : text) (s : span) (l : list span) :
  marker_free before -> Forall span_ok (s :: l) ->
  add_formatting (flat_text before (s :: l))
  = Ok (run_if before ++ flat_map span_runs (s :: l)).
Proof.
  intros Hb Hl. pose proof (find_pos_flat before (s :: l) Hb Hl) as Hfp.
  unfold add_formatting.
  destruct (filter (fun n => Py.contains n (flat_text before (s :: l)))
                   startTags) as [|st res]; [discriminate Hfp|].
  rewrite Hfp. cbn [items]. f_equal. f_equal.
  - f_equal. unfold flat_text.
    apply (slice_mid [] before (flat_map span_text (s :: l))); reflexivity.
  - apply (slicing_spans (s :: l) before).
Qed.

Lemma concat_run_if (t : text) : concat (map run_text (run_if t)) = t.
Proof. destruct t; simpl; [reflexivity|]. rewrite app_nil_r. reflexivity. Qed.

Lemma concat_span_runs (l : list span) :
  concat (map run_text (flat_map span_runs l))
  = flat_map (fun s => sp_body s ++ sp_after s) l.
Proof.
  induction l as [|s l IH]; [reflexivity|].
  cbn [flat_map]. rewrite map_app, concat_app, IH. unfold span_runs.
  cbn [map concat run_text]. rewrite concat_run_if, <- app_assoc.
  reflexivity.
Qed.

Lemma run_if_marker_free (t : text) :
  marker_free t -> Forall (fun r => marker_free (run_text r)) (run_if t).
Proof. intros H. destruct t; simpl; repeat constructor. exact H. Qed.

Lemma span_runs_marker_free (l : list span) :
  Forall span_ok l ->
  Forall (fun r => marker_free (run_text r)) (flat_map span_runs l).
Proof.
  induction 1 as [|s l [Hbody [Hafter _]] Hl IH]; [constructor|].
  cbn [flat_map]. unfold span_runs. constructor; [exact Hbody|].
  apply Forall_app. split; [apply run_if_marker_free; assumption|exact IH].
Qed.

(** ** An opening tag that is never closed *)

(** With no end tag after it, [find] answers -1 for the one entry of
    [find_pos], and the slices read it as an index from the end: the
    tagged run is the body without its last character, and the untagged
    text starts one character before the length of the end tag. *)
Lemma add_formatting_unterminated (k : stag) (body : text) :
  marker_free body -> Py.contains (stag_close k) body = false ->
  add_formatting (stag_open k ++ body)
  = Ok (mkRun (removelast body) (stag_fmt k)
        :: run_if (skipn (length (stag_close k) - 1) (stag_open k ++ body))).
Proof.
  intros Hb Hc. apply contains_occ in Hc.
  set (T := stag_open k ++ body).
  assert (Hfind : Py.find T (stag_close k) 0 = -1).
  { unfold Py.find. change (0 <? 0) with false. cbv beta iota zeta.
    destruct (Z.ltb_spec (len T) 0) as [H|_]; [reflexivity|].
    change (skipn (Z.to_nat 0) T) with T. rewrite occ_find_at. unfold T.
    rewrite occ_pass_tag, Hc;
      [reflexivity|apply stag_close_tag_like|apply stag_open_tag_like
      |apply close_vs_open]. }
  assert (Hscan :
    scan T (filter (fun n => Py.contains n T) startTags)
    = [(0, -1, stag_open k)]).
  { unfold scan. rewrite flat_map_filter_skip.
    - rewrite (flat_map_ext_on _
                 (fun st => if Py.text_eqb (stag_open k) st
                            then [(0, -1, st)] else [])).
      + rewrite startTags_eq. destruct k; reflexivity.
      + intros st Hst. unfold Py.finditer, T.
        pose proof (startTags_tag_like st Hst) as Hp.
        destruct (Py.text_eqb (stag_open k) st) eqn:E.
        * apply text_eqb_eq in E. subst st.
          rewrite finditer_aux_match by assumption.
          rewrite finditer_aux_absent by (apply marker_free_occ; assumption).
          cbn [map]. fold T. rewrite endTag_of_open, Hfind. reflexivity.
        * rewrite finditer_aux_pass_tag;
            [|assumption|apply stag_open_tag_like|].
          -- rewrite finditer_aux_absent
               by (apply marker_free_occ; assumption).
             reflexivity.
          -- apply open_vs_open; [assumption|].
             intros ->. rewrite text_eqb_refl in E. discriminate.
    - intros st Hst Hn. apply contains_occ in Hn. unfold Py.finditer.
      rewrite finditer_aux_absent by assumption. reflexivity. }
  unfold add_formatting.
  destruct (filter (fun n => Py.contains n T) startTags) as [|st res];
    [discriminate Hscan|].
  rewrite Hscan. cbn [sort insert slicing].
  rewrite endTag_of_open, tagged_run_open.
  pose proof (len_nonneg body) as Hlb.
  pose proof (len_nonneg (stag_open k)) as Hlo.
  assert (HT : len T = len (stag_open k) + len body) by apply len_app.
  assert (E0 : Py.slice T 0 0 = []).
  { unfold Py.slice, Py.clamp. change (0 <? 0) with false.
    cbv beta iota zeta. rewrite Z.sub_diag. reflexivity. }
  assert (E1 : Py.slice T (0 + len (stag_open k)) (-1) = removelast body).
  { unfold Py.slice, Py.clamp. rewrite Z.add_0_l.
    change (-1 <? 0) with true. cbv beta iota zeta.
    destruct (Z.ltb_spec (len (stag_open k)) 0); [lia|].
    rewrite Z.min_l by lia. unfold T at 2. rewrite skipn_len_app.
    rewrite removelast_firstn_len. f_equal. rewrite HT. unfold len. lia. }
  assert (E2 : Py.slice T (-1 + len (stag_close k)) (len T)
               = skipn (length (stag_close k) - 1) T).
  { unfold Py.slice, Py.clamp. cbv beta iota zeta.
    destruct (stag_close_tag_like k) as [x [Hx _]].
    rewrite Hx, len_cons. pose proof (len_nonneg x).
    destruct (Z.ltb_spec (-1 + (1 + len x)) 0); [lia|].
    destruct (Z.ltb_spec (len T) 0); [lia|].
    rewrite Z.min_id.
    replace (length (lt_sign :: x) - 1)%nat with (length x) by (simpl; lia).
    replace (-1 + (1 + len x)) with (len x) by lia.
    destruct (Z.le_ge_cases (len x) (len T)) as [Hle|Hge].
    - rewrite Z.min_l by lia.
      replace (Z.to_nat (len x)) with (length x) by (unfold len; lia).
      apply firstn_all2. rewrite length_skipn. unfold len in *. lia.
    - rewrite Z.min_r by lia. rewrite Z.sub_diag. simpl firstn.
      symmetry. apply skipn_all2. unfold len in *. lia. }
  rewrite E0, E1, E2. cbn [run_if app]. rewrite app_nil_r. reflexivity.
Qed.

(** ** The run builder on flat markup *)

Ltac solve_marker_free :=
  let st := fresh "st" in
  let H := fresh "H" in
  intros st H; rewrite startTags_eq in H;
  repeat (destruct H as [<-|H]; [reflexivity|]); contradiction.

(** C1, amended: for a text made of plain text and closed spans of the bold,
    italic, superscript, subscript and unit-label font tags side by side,
    where no piece holds a start tag and no body holds its own end tag,
    [add_formatting] returns; its runs are the plain text before the first
    span when there is some, then for each span its body in the span's
    format and the plain text after it when there is some; their texts put
    together are the text without the markers of the spans, and none of them
    holds a start tag. *)
Theorem add_formatting_flat_coverage (before : text) (spans : list span) :
  marker_free before -> Forall span_ok spans ->
  exists runs,
    add_formatting (flat_text before spans) = Ok runs
    /\ runs = match spans with
              | [] => [mkRun before Plain]
              | _ :: _ => run_if before ++ flat_map span_runs spans
              end
    /\ concat (map run_text runs) = visible_text before spans
    /\ Forall (fun r => marker_free (run_text r)) runs.
Proof.
  intros Hb Hl. destruct spans as [|s l].
  - exists [mkRun before Plain]. unfold flat_text, visible_text. simpl.
    rewrite !app_nil_r. repeat split.
    + apply add_formatting_plain. assumption.
    + repeat constructor. assumption.
  - exists (run_if before ++ flat_map span_runs (s :: l)). repeat split.
    + apply add_formatting_spans; assumption.
    + rewrite map_app, concat_app, concat_run_if, concat_span_runs.
      reflexivity.
    + apply Forall_app. split.
      * apply run_if_marker_free. assumption.
      * apply span_runs_marker_free. assumption.
Qed.

Lemma add_formatting_flat_coverage_witness :
  exists runs,
    add_formatting (py "x<sup>2</sup>y<b>Basalt</b> flows") = Ok runs
    /\ runs = [mkRun (py "x") Plain; mkRun (py "2") Superscript;
               mkRun (py "y") Plain; mkRun (py "Basalt") Bold;
               mkRun (py " flows") Plain]
    /\ concat (map run_text runs) = py "x2yBasalt flows"
    /\ Forall (fun r => marker_free (run_text r)) runs.
Proof.
  apply (add_formatting_flat_coverage
           (py "x")
           [mkSpan TSup (py "2") (py "y");
            mkSpan TB (py "Basalt") (py " flows")]).
  - solve_marker_free.
  - repeat constructor; try solve_marker_free.
Defined.

(** C1 as stated fails on nested tags: the bold run holds the markers of the
    italic span inside it, the italic body comes twice, and the closing bold
    marker ends up in a plain run. *)
Lemma nested_tags_counterexample :
  add_formatting (py "<b>a<i>b</i>c</b>")
  = Ok [mkRun (py "a<i>b</i>c") Bold; mkRun (py "b") Italic;
        mkRun (py "c</b>") Plain]
  /\ ~ (forall ptext runs,
           add_formatting ptext = Ok runs ->
           Forall (fun r => forall m, In m (startTags ++ endTags) ->
                                      Py.contains m (run_text r) = false)
                  runs).
Proof.
  split; [vm_compute; reflexivity|].
  intros H.
  specialize (H (py "<b>a<i>b</i>c</b>") _ eq_refl).
  apply Forall_inv in H.
  specialize (H (py "<i>")). discriminate H.
  rewrite startTags_eq. simpl. tauto.
Qed.

(** * Further properties of [GeMS_DMUtoDocx_AGP2.py] *)

(** ** The run builder *)

(** X1: [add_formatting] never raises an [IndexError]: when a start tag is
    in the text, [find_pos] has an entry, so [find_pos[0][0]] is in
    bounds. *)
Theorem add_formatting_no_IndexError (ptext : text) :
  add_formatting ptext <> Raise IndexError.
Proof.
  destruct (add_formatting_total ptext) as [runs ->]. discriminate.
Qed.

(** X2: a text that holds no start tag of the catalog becomes one plain run
    holding the text as it is; the empty text becomes one empty run. *)
Theorem untagged_text_single_run (t : text) :
  marker_free t -> add_formatting t = Ok [mkRun t Plain].
Proof. apply add_formatting_plain. Qed.

Lemma untagged_text_single_run_witness :
  add_formatting (py "Basalt flows </b> and <br> tuff")
  = Ok [mkRun (py "Basalt flows </b> and <br> tuff") Plain]
  /\ add_formatting [] = Ok [mkRun [] Plain].
Proof.
  split; apply untagged_text_single_run; solve_marker_free.
Defined.

(** X3: a text that is the start tag of a formatted tag and a body with no
    start tag and no end tag of that tag: the runs are the body without its
    last character in the tag's format, and, when not empty, the text from
    the offset one less than the length of the end tag. *)
Theorem unterminated_tag_runs (k : stag) (body : text) :
  marker_free body -> Py.contains (stag_close k) body = false ->
  add_formatting (stag_open k ++ body)
  = Ok (mkRun (removelast body) (stag_fmt k)
        :: run_if (skipn (length (stag_close k) - 1) (stag_open k ++ body))).
Proof. apply add_formatting_unterminated. Qed.

Lemma unterminated_tag_runs_witness :
  add_formatting (py "<sup>18O")
  = Ok [mkRun (py "18") Superscript; mkRun (py "18O") Plain].
Proof.
  apply (unterminated_tag_runs TSup (py "18O")).
  - solve_marker_free.
  - reflexivity.
Defined.

(** ** One closed span of any tag of the catalog *)

Lemma endTag_of_tag_like (o : text) : In o startTags -> tag_like (endTag_of o).
Proof.
  rewrite startTags_eq. intros H. unfold tag_like.
  repeat (destruct H as [<-|H];
          [eexists; split; [reflexivity|]; vm_compute; intros H;
           repeat (destruct H as [H|H]; [discriminate|]); exact H|]).
  contradiction.
Qed.

Lemma catalog_open_vs_open (st o Y : text) :
  In st startTags -> In o startTags -> st <> o ->
  Py.starts_with st (o ++ Y) = false.
Proof.
  rewrite startTags_eq. intros Hst Ho Hne.
  repeat (destruct Hst as [<-|Hst];
          [repeat (destruct Ho as [<-|Ho];
                   [first [reflexivity|exfalso; apply Hne; reflexivity]|]);
           contradiction|]).
  contradiction.
Qed.

Lemma catalog_open_vs_close (st o Y : text) :
  In st startTags -> In o startTags ->
  Py.starts_with st (endTag_of o ++ Y) = false.
Proof.
  rewrite startTags_eq. intros Hst Ho.
  repeat (destruct Hst as [<-|Hst];
          [repeat (destruct Ho as [<-|Ho]; [reflexivity|]); contradiction|]).
  contradiction.
Qed.

Lemma catalog_close_vs_open (o Y : text) :
  In o startTags -> Py.starts_with (endTag_of o) (o ++ Y) = false.
Proof.
  rewrite startTags_eq. intros Ho.
  repeat (destruct Ho as [<-|Ho]; [reflexivity|]). contradiction.
Qed.

Lemma scan_single (o : text) (b e : Z) :
  In o startTags ->
  flat_map (fun st => if Py.text_eqb o st then [(b, e, st)] else []) startTags
  = [(b, e, o)].
Proof.
  rewrite startTags_eq. intros Ho.
  repeat (destruct Ho as [<-|Ho]; [reflexivity|]). contradiction.
Qed.

(** The runs of a text with one closed span: the text before it, whatever
    the tag adds for the body, the text after it. *)
Lemma add_formatting_single_span (o before body after : text) :
  In o startTags ->
  marker_free before -> marker_free body -> marker_free after ->
  Py.contains (endTag_of o) body = false ->
  add_formatting (before ++ o ++ body ++ endTag_of o ++ after)
  = Ok (run_if before ++ tagged_run o body ++ run_if after).
Proof.
  intros Ho Hbefore Hbody Hafter Hc. apply contains_occ in Hc.
  set (c := endTag_of o) in *.
  set (T := before ++ o ++ body ++ c ++ after).
  pose proof (startTags_tag_like o Ho) as Hto.
  pose proof (endTag_of_tag_like o Ho) as Htc. fold c in Htc.
  pose proof (len_nonneg before) as Hlb.
  pose proof (len_nonneg o) as Hlo.
  pose proof (len_nonneg body) as Hlbody.
  pose proof (len_nonneg c) as Hlc.
  pose proof (len_nonneg after) as Hla.
  assert (HT : len T = len before + len o + len body + len c + len after).
  { unfold T. rewrite !len_app. lia. }
  assert (Hfind : Py.find T c (len before)
                  = len before + len o + len body).
  { unfold Py.find. cbv zeta.
    destruct (Z.ltb_spec (len before) 0); [lia|].
    destruct (Z.ltb_spec (len T) (len before)); [lia|].
    unfold T. rewrite skipn_len_app, occ_find_at.
    rewrite occ_pass_tag;
      [|assumption|assumption|apply catalog_close_vs_open; assumption].
    rewrite occ_free; [|assumption|apply lt_headed_tag; assumption|assumption].
    rewrite (occ_here _ _ (starts_with_self_app _ _)). simpl.
    unfold len. lia. }
  assert (Hscan :
    scan T (filter (fun n => Py.contains n T) startTags)
    = [(len before, len before + len o + len body, o)]).
  { unfold scan. rewrite flat_map_filter_skip.
    - rewrite (flat_map_ext_on _
                 (fun st => if Py.text_eqb o st
                            then [(len before, len before + len o + len body, st)]
                            else [])).
      + apply scan_single. assumption.
      + intros st Hst. unfold Py.finditer.
        pose proof (startTags_tag_like st Hst) as Hp.
        assert (Hrest : forall j,
                   Py.finditer_aux st 0 (body ++ c ++ after) j = []).
        { intros j.
          rewrite finditer_aux_free;
            [|assumption|apply lt_headed_tag; assumption
             |apply marker_free_occ; assumption].
          rewrite finditer_aux_pass_tag;
            [|assumption|assumption
             |apply catalog_open_vs_close; assumption].
          apply finditer_aux_absent, marker_free_occ; assumption. }
        unfold T at 2.
        rewrite finditer_aux_free;
          [|assumption|apply lt_headed_tag; assumption
           |apply marker_free_occ; assumption].
        destruct (Py.text_eqb o st) eqn:E.
        * apply text_eqb_eq in E. subst st.
          rewrite finditer_aux_match by assumption. rewrite Hrest.
          cbn [map]. rewrite Z.add_0_l. fold c. rewrite Hfind. reflexivity.
        * rewrite finditer_aux_pass_tag; [|assumption|assumption|].
          -- rewrite Hrest. reflexivity.
          -- apply catalog_open_vs_open; try assumption.
             intros ->. rewrite text_eqb_refl in E. discriminate.
    - intros st Hst Hn. apply contains_occ in Hn. unfold Py.finditer.
      rewrite finditer_aux_absent by assumption. reflexivity. }
  unfold add_formatting. fold T.
  destruct (filter (fun n => Py.contains n T) startTags) as [|st res];
    [discriminate Hscan|].
  rewrite Hscan. cbn [sort insert slicing]. fold c.
  assert (E0 : Py.slice T 0 (len before) = before).
  { apply (slice_mid [] before (o ++ body ++ c ++ after)); reflexivity. }
  assert (E1 : Py.slice T (len before + len o)
                        (len before + len o + len body) = body).
  { unfold T. rewrite (app_assoc before o).
    apply slice_mid; rewrite ?len_app; reflexivity. }
  assert (E2 : Py.slice T (len before + len o + len body + len c) (len T)
               = after).
  { rewrite HT. unfold T.
    replace (before ++ o ++ body ++ c ++ after)
      with ((before ++ o ++ body ++ c) ++ after ++ [])
      by (rewrite app_nil_r, <- !app_assoc; reflexivity).
    apply slice_mid; rewrite ?len_app; lia. }
  rewrite E0, E1, E2. rewrite app_nil_r. reflexivity.
Qed.

(** X4: the tags ['<p>'], ['<g>'] and ['<ul>'] are searched for like the
    others but have no branch of their own: of a text with one closed span
    of such a tag, the runs are the text before the span and the text after
    it, and the body of the span is in no run. *)
Theorem structural_tag_body_dropped (o before body after : text) :
  In o [py "<p>"; py "<g>"; py "<ul>"] ->
  marker_free before -> marker_free body -> marker_free after ->
  Py.contains (endTag_of o) body = false ->
  add_formatting (before ++ o ++ body ++ endTag_of o ++ after)
  = Ok (run_if before ++ run_if after).
Proof.
  intros Ho Hbefore Hbody Hafter Hc.
  rewrite add_formatting_single_span; try assumption.
  - destruct Ho as [<-|[<-|[<-|[]]]]; reflexivity.
  - rewrite startTags_eq. simpl. simpl in Ho. tauto.
Qed.

Lemma structural_tag_body_dropped_witness :
  add_formatting (py "Unit <g>Qal</g> of the valley")
  = Ok [mkRun (py "Unit ") Plain; mkRun (py " of the valley") Plain].
Proof.
  apply (structural_tag_body_dropped
           (py "<g>") (py "Unit ") (py "Qal") (py " of the valley")).
  - right. left. reflexivity.
  - solve_marker_free.
  - solve_marker_free.
  - solve_marker_free.
  - reflexivity.
Defined.

(** ** The tests on fields and styles *)

Lemma has_contains (s sub : text) : has s sub = Py.contains sub s.
Proof.
  unfold has, Py.find, Py.contains. change (0 <? 0) with false. cbv iota zeta.
  destruct (Z.ltb_spec (len s) 0) as [H|_];
    [pose proof (len_nonneg s); lia|].
  change (skipn (Z.to_nat 0) s) with s. rewrite occ_find_at.
  destruct (occ sub s) as [k|]; [|reflexivity].
  destruct (Z.eqb_spec (0 + Z.of_nat k) (-1)); [lia|].
  apply Z.gtb_lt. lia.
Qed.

(** X5: a field that [notNullText] accepts is accepted by [isNotBlank] too:
    what makes a headnote under a heading would also count as the
    description of a unit. *)
Theorem notNullText_isNotBlank (d : option text) :
  notNullText d = true -> isNotBlank d = true.
Proof.
  destruct d as [s|]; [|discriminate]. unfold notNullText, isNotBlank.
  destruct (Py.text_eqb s []); [|reflexivity].
  rewrite !orb_true_r. discriminate.
Qed.

Lemma notNullText_isNotBlank_witness :
  isNotBlank (field "Basalt flows") = true.
Proof. apply notNullText_isNotBlank. reflexivity. Defined.

(** X6: [isKnownStyle] answers from the first name of its list alone: a
    style that the record loop takes as a heading or as a unit, and that
    does not hold ['DMUHeadnote'], is reported as not known. *)
Theorem isKnownStyle_first_name_only (pStyle : text) :
  has pStyle (py "DMU-Heading") = true \/ has pStyle (py "DMUUnit") = true ->
  has pStyle (py "DMUHeadnote") = false ->
  isKnownStyle pStyle = Some false.
Proof.
  intros _ H. rewrite has_contains in H. unfold isKnownStyle, known_styles.
  rewrite H. reflexivity.
Qed.

Lemma isKnownStyle_first_name_only_witness :
  isKnownStyle (py "DMUUnit1") = Some false
  /\ isKnownStyle (py "DMU-Heading2") = Some false.
Proof.
  split; apply isKnownStyle_first_name_only;
    first [reflexivity|right; reflexivity|left; reflexivity].
Defined.

(** ** What a row raises and what it adds *)

Lemma heading_branch_result (st : State) (row : Row) (style : text) :
  match name row with
  | Some _ => exists st', heading_branch st row style = Ok st'
  | None => heading_branch st row style = Raise TypeError
  end.
Proof.
  unfold heading_branch, add_formatting_field.
  destruct (name row) as [n|]; [|reflexivity].
  destruct (add_formatting_total n) as [runs ->]. cbn [bind].
  destruct (description row) as [d|].
  - destruct (notNullText (Some d)); [|eauto].
    destruct (add_formatting_total d) as [runs' ->]. cbn [bind]. eauto.
  - change (notNullText None) with false. cbv iota. eauto.
Qed.

Lemma unit_branch_result (cfg : Config) (st : State) (row : Row) (style : text) :
  match pick_abbrv cfg st row with
  | Some _ => exists st', unit_branch cfg st row style = Ok st'
  | None => unit_branch cfg st row style = Raise (NameError "abbrv")
  end.
Proof.
  unfold unit_branch.
  destruct (pick_abbrv cfg st row) as [a|]; [|reflexivity].
  destruct (description row) as [d|]; [|cbn [bind]; eauto].
  destruct (isNotBlank (Some d)) eqn:Hd; [|cbn [andb bind]; eauto].
  destruct (negb (isLMU cfg)); [|cbn [andb bind]; eauto].
  apply isNotBlank_Some in Hd.
  destruct (description_part_total d Hd) as [r ->]. cbn [andb bind]. eauto.
Qed.

(** X7: the operations of the loop body itself, python-docx's calls taken
    to accept the styles and texts they are given, stop the loop in three
    ways and no other: an [AttributeError] exactly for a NULL paragraph
    style, a [TypeError] exactly for a heading with a NULL name, a
    [NameError] on [abbrv] exactly for a unit for which no abbreviation is
    assigned or left. *)
Theorem process_row_errors (cfg : Config) (st : State) (row : Row) :
  (process_row cfg st row = Raise AttributeError <-> paragraphstyle row = None)
  /\ (process_row cfg st row = Raise TypeError <->
      exists style, paragraphstyle row = Some style
                    /\ has style (py "DMU-Heading") = true
                    /\ name row = None)
  /\ (process_row cfg st row = Raise (NameError "abbrv") <->
      exists style, paragraphstyle row = Some style
                    /\ has style (py "DMU-Heading") = false
                    /\ has style (py "DMUUnit") = true
                    /\ pick_abbrv cfg st row = None)
  /\ (forall e, process_row cfg st row = Raise e ->
                e = AttributeError \/ e = TypeError \/ e = NameError "abbrv").
Proof.
  pose proof (heading_branch_result st row) as Hh.
  pose proof (unit_branch_result cfg st row) as Hu.
  pose proof (process_row_raises cfg st row) as Hr.
  unfold process_row in *.
  destruct (paragraphstyle row) as [style|].
  - specialize (Hh style). specialize (Hu style).
    destruct (has style (py "DMU-Heading")) eqn:E1;
      [|destruct (has style (py "DMUUnit")) eqn:E2].
    + destruct (name row) as [n|] eqn:En;
        [destruct Hh as [st1 ->]|rewrite Hh in Hr |- *];
        repeat split; try discriminate; try exact Hr;
        try (intros; reflexivity);
        try (intros [s [Hs H]]; injection Hs as Hs; subst s;
             decompose [and] H; congruence);
        intros _; exists style; auto.
    + destruct (pick_abbrv cfg st row) as [a|] eqn:Ea;
        [destruct Hu as [st2 ->]|rewrite Hu in Hr |- *];
        repeat split; try discriminate; try exact Hr;
        try (intros; reflexivity);
        try (intros [s [Hs H]]; injection Hs as Hs; subst s;
             decompose [and] H; congruence);
        intros _; exists style; auto.
    + repeat split; try discriminate; try exact Hr;
        intros [s [Hs H]]; injection Hs as Hs; subst s;
             decompose [and] H; congruence.
  - repeat split; try discriminate; try exact Hr; try reflexivity;
      intros [s [H _]]; discriminate.
Qed.

Lemma process_row_errors_witness :
  process_row (mkConfig false false) (mkState [] false None)
              (mkRow None None (field "Alluvium") None None None None)
  = Raise AttributeError
  /\ process_row (mkConfig false false) (mkState [] false None)
                 (mkRow None None None None None (field "DMU-Heading2") None)
     = Raise TypeError
  /\ process_row (mkConfig false false) (mkState [] false None) row_nolabel
     = Raise (NameError "abbrv").
Proof.
  split; [|split].
  - apply (proj1 (process_row_errors _ _ _)). reflexivity.
  - apply (proj1 (proj2 (process_row_errors _ _ _))).
    exists (py "DMU-Heading2"). repeat split; reflexivity.
  - apply (proj1 (proj2 (proj2 (process_row_errors _ _ _)))).
    exists (py "DMUUnit1"). repeat split; reflexivity.
Defined.

Lemma more_paragraphs_shape (others : list text) :
  exists more,
    fold_right
      (fun p acc =>
         runs <- add_formatting p ;;
         ps <- acc ;;
         Ok (mkPar (py "DMUParagraph") runs :: ps))
      (Ok []) others = Ok more
    /\ Forall2 (fun p par => par_style par = py "DMUParagraph"
                             /\ add_formatting p = Ok (par_runs par))
               others more.
Proof.
  induction others as [|p others [more [E IH]]]; simpl.
  - exists []. split; [reflexivity|constructor].
  - destruct (add_formatting_total p) as [runs Hr]. rewrite Hr, E. simpl.
    eexists. split; [reflexivity|]. constructor; [|exact IH].
    split; [reflexivity|exact Hr].
Qed.

Lemma heading_branch_appends (st st' : State) (row : Row) (style : text) :
  heading_branch st row style = Ok st' ->
  exists ps, document st' = document st ++ ps.
Proof.
  unfold heading_branch.
  destruct (add_formatting_field (name row)) as [runs|e]; cbn [bind];
    [|discriminate].
  destruct (notNullText (description row)).
  - destruct (add_formatting_field (description row)) as [runs'|e];
      cbn [bind]; [|discriminate].
    intros [= <-]. simpl. eauto.
  - intros [= <-]. simpl. eauto.
Qed.

Lemma unit_branch_appends (cfg : Config) (st st' : State) (row : Row)
      (style : text) :
  unit_branch cfg st row style = Ok st' ->
  exists ps, document st' = document st ++ ps.
Proof.
  unfold unit_branch.
  destruct (pick_abbrv cfg st row) as [a|]; [|discriminate].
  match goal with
  | |- bind ?m _ = _ -> _ => destruct m as [desc|e]; cbn [bind]
  end; [|discriminate].
  intros [= <-]. simpl. eauto.
Qed.

Lemma process_row_appends (cfg : Config) (st st' : State) (row : Row) :
  process_row cfg st row = Ok st' ->
  exists ps, document st' = document st ++ ps.
Proof.
  unfold process_row.
  destruct (paragraphstyle row) as [style|]; [|discriminate].
  destruct (has style (py "DMU-Heading")); [apply heading_branch_appends|].
  destruct (has style (py "DMUUnit")); [apply unit_branch_appends|].
  intros [= <-]. exists []. rewrite app_nil_r. reflexivity.
Qed.

Lemma process_rows_appends (cfg : Config) (rows : list Row) :
  forall st st', process_rows cfg st rows = Ok st' ->
                 exists ps, document st' = document st ++ ps.
Proof.
  induction rows as [|row rows IH]; intros st st'; simpl.
  - intros [= <-]. exists []. rewrite app_nil_r. reflexivity.
  - destruct (process_row cfg st row) as [st1|e] eqn:E; cbn [bind];
      [|discriminate].
    intros H. apply IH in H as [ps2 H2].
    apply process_row_appends in E as [ps1 H1].
    exists (ps1 ++ ps2). rewrite H2, H1, app_assoc. reflexivity.
Qed.

(** X8: the loop only adds paragraphs at the end of the document: the
    paragraphs written for earlier rows are there, unchanged and in the same
    order, after any further rows. *)
Theorem document_only_grows (cfg : Config) (rows : list Row) (st st' : State) :
  process_rows cfg st rows = Ok st' ->
  exists ps, document st' = document st ++ ps.
Proof. apply process_rows_appends. Qed.

Lemma document_only_grows_witness :
  exists ps,
    document (mkState [title_dmu;
                       mkPar (py "DMU-Heading2")
                             [mkRun (py "SURFICIAL DEPOSITS") Plain];
                       mkPar (py "DMUUnit1")
                             [mkRun (py "Qal" ++ [tab]) label_style;
                              mkRun (py "Alluvium") nameage_style;
                              mkRun (py "(Holocene)") Plain]]
                      false (Some (py "Qal" ++ [tab])))
    = document (mkState [title_dmu] false None) ++ ps.
Proof.
  apply (document_only_grows (mkConfig false false) [row_heading; row_Qal]).
  vm_compute. reflexivity.
Defined.

(** X9: in a list of map units ([isLMU]) a unit row gives one paragraph
    with the label, name and age runs and nothing of its description,
    while a heading row still gets its headnote paragraph: the heading
    branch does not look at [isLMU]. *)
Theorem list_mode_descriptions :
  (forall cfg st row style a,
      isLMU cfg = true ->
      paragraphstyle row = Some style ->
      has style (py "DMU-Heading") = false ->
      has style (py "DMUUnit") = true ->
      pick_abbrv cfg st row = Some a ->
      process_row cfg st row
      = Ok (mkState
              (document st
               ++ [mkPar (if lastParaWasHeading st
                          then py "DMUUnit11stafterheading" else style)
                         (mkRun (label_text style a) label_style
                          :: name_runs row ++ age_runs row)])
              (has style (py "Head")) (Some (label_text style a))))
  /\ (forall cfg st row style n d,
         paragraphstyle row = Some style ->
         has style (py "DMU-Heading") = true ->
         name row = Some n -> description row = Some d ->
         notNullText (Some d) = true ->
         exists hruns druns,
           add_formatting n = Ok hruns /\ add_formatting d = Ok druns
           /\ process_row cfg st row
              = Ok (mkState
                      (document st
                       ++ [mkPar style hruns; mkPar (py "DMUHeadnote") druns])
                      (lastParaWasHeading st) (abbrv st))).
Proof.
  split.
  - intros cfg st row style a Hl Hs Hh Hu Ha.
    unfold process_row. rewrite Hs, Hh, Hu. unfold unit_branch.
    rewrite Ha, Hl.
    destruct (description row) as [d|];
      rewrite ?andb_false_r; cbn [negb bind fst snd];
      rewrite !app_nil_r; reflexivity.
  - intros cfg st row style n d Hs Hh Hn Hd Hnn.
    destruct (add_formatting_total n) as [hruns Hhr].
    destruct (add_formatting_total d) as [druns Hdr].
    exists hruns, druns. repeat split; try assumption.
    unfold process_row. rewrite Hs, Hh. unfold heading_branch.
    rewrite Hn, Hd, Hnn. unfold add_formatting_field. rewrite Hhr, Hdr.
    reflexivity.
Qed.

Lemma list_mode_descriptions_witness :
  process_row (mkConfig false true) (mkState [] false None)
              (mkRow (field "Qal") (field "Qal") (field "Alluvium") None
                     (field "Sand and <b>gravel</b>") (field "DMUUnit1") None)
  = Ok (mkState [mkPar (py "DMUUnit1")
                       [mkRun (py "Qal" ++ [tab]) label_style;
                        mkRun (py "Alluvium") nameage_style]]
                false (Some (py "Qal" ++ [tab])))
  /\ exists hruns druns,
      add_formatting (py "SURFICIAL DEPOSITS") = Ok hruns
      /\ add_formatting (py "Young deposits") = Ok druns
      /\ process_row (mkConfig false true) (mkState [] false None)
                     (mkRow None None (field "SURFICIAL DEPOSITS") None
                            (field "Young deposits") (field "DMU-Heading2") None)
         = Ok (mkState [mkPar (py "DMU-Heading2") hruns;
                        mkPar (py "DMUHeadnote") druns]
                       false None).
Proof.
  split.
  - exact (proj1 list_mode_descriptions (mkConfig false true)
                 (mkState [] false None)
                 (mkRow (field "Qal") (field "Qal") (field "Alluvium") None
                        (field "Sand and <b>gravel</b>") (field "DMUUnit1")
                        None)
                 (py "DMUUnit1") (py "Qal")
                 eq_refl eq_refl eq_refl eq_refl eq_refl).
  - exact (proj2 list_mode_descriptions (mkConfig false true)
                 (mkState [] false None)
                 (mkRow None None (field "SURFICIAL DEPOSITS") None
                        (field "Young deposits") (field "DMU-Heading2") None)
                 (py "DMU-Heading2")
                 (py "SURFICIAL DEPOSITS") (py "Young deposits")
                 eq_refl eq_refl eq_refl eq_refl eq_refl).
Defined.

(** X10: a unit row of a full DMU whose description is not empty: the
    first piece of the split description follows an em-dash run in the
    unit paragraph, and every further piece is a paragraph of style
    ['DMUParagraph'] of its own, in the order of the pieces, so that the row
    adds as many paragraphs as the description has pieces. *)
Theorem unit_description_paragraphs
        (cfg : Config) (st : State) (row : Row) (style a d : text) :
  isLMU cfg = false ->
  paragraphstyle row = Some style ->
  has style (py "DMU-Heading") = false ->
  has style (py "DMUUnit") = true ->
  pick_abbrv cfg st row = Some a ->
  description row = Some d -> d <> [] ->
  exists first others first_runs more,
    split_paras d = first :: others
    /\ add_formatting first = Ok first_runs
    /\ Forall2 (fun p par => par_style par = py "DMUParagraph"
                             /\ add_formatting p = Ok (par_runs par))
               others more
    /\ process_row cfg st row
       = Ok (mkState
               (document st
                ++ mkPar (if lastParaWasHeading st
                          then py "DMUUnit11stafterheading" else style)
                         (mkRun (label_text style a) label_style
                          :: name_runs row ++ age_runs row
                          ++ mkRun emDash Plain :: first_runs)
                   :: more)
               (has style (py "Head")) (Some (label_text style a))).
Proof.
  intros Hl Hs Hh Hu Ha Hd Hne.
  destruct (split_paras_cons d Hne) as [first [others Hsp]].
  destruct (add_formatting_total first) as [first_runs Hf].
  destruct (more_paragraphs_shape others) as [more [Hm Hshape]].
  exists first, others, first_runs, more. repeat split; try assumption.
  unfold process_row. rewrite Hs, Hh, Hu. unfold unit_branch.
  rewrite Ha, Hd, Hl. rewrite (proj2 (isNotBlank_Some d) Hne).
  cbn [negb andb]. unfold description_part. rewrite Hsp, Hf. cbn [bind].
  rewrite Hm. reflexivity.
Qed.

Lemma unit_description_paragraphs_witness :
  exists first others first_runs more,
    split_paras (py "<b>Basalt</b> flows<br>locally vesicular")
    = first :: others
    /\ add_formatting first = Ok first_runs
    /\ Forall2 (fun p par => par_style par = py "DMUParagraph"
                             /\ add_formatting p = Ok (par_runs par))
               others more
    /\ process_row (mkConfig false false) (mkState [] false None)
                   (mkRow None (field "Tb") (field "Basalt") None
                          (field "<b>Basalt</b> flows<br>locally vesicular")
                          (field "DMUUnit1") None)
       = Ok (mkState
               (mkPar (py "DMUUnit1")
                      (mkRun (py "Tb" ++ [tab]) label_style
                       :: [mkRun (py "Basalt") nameage_style] ++ []
                       ++ mkRun emDash Plain :: first_runs)
                  :: more)
               false (Some (py "Tb" ++ [tab]))).
Proof.
  apply (unit_description_paragraphs
           (mkConfig false false) (mkState [] false None)
           (mkRow None (field "Tb") (field "Basalt") None
                  (field "<b>Basalt</b> flows<br>locally vesicular")
                  (field "DMUUnit1") None)
           (py "DMUUnit1") (py "Tb")
           (py "<b>Basalt</b> flows<br>locally vesicular"));
    try reflexivity.
  discriminate.
Defined.

(** X11: [lastParaWasHeading] is set from unit rows alone. Starting from
    [False], it is still [False] after any rows in which no style taken as a
    unit holds ['Head'], however many headings are among them: the next unit
    paragraph gets the style of its own row. *)
Theorem flag_stays_false (cfg : Config) (rows : list Row) :
  forall st st',
    lastParaWasHeading st = false ->
    (forall row style,
        In row rows -> paragraphstyle row = Some style ->
        has style (py "DMU-Heading") = false ->
        has style (py "DMUUnit") = true ->
        has style (py "Head") = false) ->
    process_rows cfg st rows = Ok st' ->
    lastParaWasHeading st' = false.
Proof.
  induction rows as [|row rows IH]; intros st st' Hf Hrows; simpl.
  - intros [= <-]. exact Hf.
  - destruct (process_row cfg st row) as [st1|e] eqn:E; cbn [bind];
      [|discriminate].
    apply IH.
    + unfold process_row in E.
      destruct (paragraphstyle row) as [style|] eqn:Hs; [|discriminate].
      destruct (has style (py "DMU-Heading")) eqn:Hh.
      * apply heading_branch_keeps_flag in E. congruence.
      * destruct (has style (py "DMUUnit")) eqn:Hu.
        -- apply unit_branch_sets_flag in E. rewrite E.
           apply (Hrows row style); auto. left. reflexivity.
        -- injection E as <-. exact Hf.
    + intros r s Hin. apply Hrows. right. exact Hin.
Qed.

Lemma flag_stays_false_witness :
  lastParaWasHeading
    (mkState [mkPar (py "DMU-Heading2")
                    [mkRun (py "SURFICIAL DEPOSITS") Plain]]
             false None)
  = false.
Proof.
  apply (flag_stays_false (mkConfig false false) [row_heading]
                          (mkState [] false None)).
  - reflexivity.
  - intros row style [<-|[]] [= <-]. discriminate.
  - vm_compute. reflexivity.
Defined.

(** ** The script as a whole *)

(** X12: with fewer than five arguments after the script name the script
    stops with an [IndexError] before it reads a row; with its arguments
    and an empty table it stops with [StopIteration] at the first
    [dmuRows.next()]. *)
Theorem main_missing_inputs :
  (forall argv rows, (length argv < 6)%nat -> main argv rows = Raise IndexError)
  /\ (forall argv, (6 <= length argv)%nat -> main argv [] = Raise StopIteration).
Proof.
  split.
  - intros argv rows H. unfold main.
    do 6 (destruct argv as [|? argv]; [reflexivity|]).
    simpl in H. lia.
  - intros argv H.
    do 6 (destruct argv as [|? argv]; [simpl in H; lia|]).
    reflexivity.
Qed.

Lemma main_missing_inputs_witness :
  main [py "GeMS_DMUtoDocx_AGP2.py"; py "map.gdb"; py "out"; py "dmu";
        py "false"] [row_title; row_Qal]
  = Raise IndexError
  /\ main argv_dmu [] = Raise StopIteration.
Proof.
  split.
  - apply (proj1 main_missing_inputs). simpl. lia.
  - apply (proj2 main_missing_inputs). simpl. lia.
Defined.

Lemma title_test_fails (n : text) : py_in (PMethod n "lower") titles = false.
Proof. reflexivity. Qed.

(** X13: the first row of the table is taken off the cursor and not
    dispatched: unless its style is ['DMUHeadnote'], nothing of it reaches
    the document, so two tables that differ in their first row alone give
    the same document (the name of a first row must not be NULL, or the
    script stops). *)
Theorem first_row_fields_ignored (argv : list text) (r1 r2 : Row)
        (rows : list Row) :
  name r1 <> None -> name r2 <> None ->
  paragraphstyle r1 <> Some (py "DMUHeadnote") ->
  paragraphstyle r2 <> Some (py "DMUHeadnote") ->
  main argv (r1 :: rows) = main argv (r2 :: rows).
Proof.
  assert (Hno : forall r, paragraphstyle r <> Some (py "DMUHeadnote") ->
                          py_eq (of_field (paragraphstyle r))
                                (PStr (py "DMUHeadnote")) = false).
  { intros r H. destruct (paragraphstyle r) as [s|]; [|reflexivity].
    apply text_eqb_neq. congruence. }
  intros H1 H2 Hs1 Hs2. unfold main.
  destruct (arg argv 1) as [a1|]; [|reflexivity].
  destruct (arg argv 2) as [a2|]; [|reflexivity].
  destruct (arg argv 3) as [a3|]; [|reflexivity].
  destruct (arg argv 4) as [a4|]; [|reflexivity].
  destruct (arg argv 5) as [a5|]; [|reflexivity].
  cbn [bind next fst snd].
  destruct (name r1) as [n1|]; [|congruence].
  destruct (name r2) as [n2|]; [|congruence].
  cbn [getattr_lower bind]. rewrite !title_test_fails. cbn [bind].
  rewrite (Hno r1 Hs1), (Hno r2 Hs2). reflexivity.
Qed.

Lemma first_row_fields_ignored_witness :
  main argv_dmu [row_Qal; row_Qt] = main argv_dmu [row_title; row_Qt].
Proof.
  apply first_row_fields_ignored; discriminate.
Defined.

(** X14: a document the script finishes begins with the title paragraph
    of style ['DMU-Heading1'], whose text is chosen by the sixth argument
    alone. *)
Theorem main_title_first (argv : list text) (rows : list Row)
        (doc : list Paragraph) :
  main argv rows = Ok doc ->
  exists a5 rest,
    nth_error argv 5 = Some a5
    /\ doc = mkPar (py "DMU-Heading1")
                   [mkRun (if Py.text_eqb a5 (py "true")
                           then py "LIST OF MAP UNITS"
                           else py "DESCRIPTION OF MAP UNITS") Plain]
             :: rest.
Proof.
  unfold main, arg.
  destruct (nth_error argv 1); [|discriminate].
  destruct (nth_error argv 2); [|discriminate].
  destruct (nth_error argv 3); [|discriminate].
  destruct (nth_error argv 4) as [a4|]; [|discriminate].
  destruct (nth_error argv 5) as [a5|]; [|discriminate].
  cbn [bind].
  destruct (next rows) as [fr|]; [|discriminate]. cbn [bind].
  destruct (getattr_lower (name (fst fr))) as [lower|]; [|discriminate].
  cbn [bind].
  match goal with
  | |- bind ?m _ = _ -> _ => destruct m as [rows1|]; [|discriminate]
  end.
  cbn [bind].
  match goal with
  | |- bind ?m _ = _ -> _ => destruct m as [st|] eqn:E; [|discriminate]
  end.
  cbn [bind]. change (py_eq (PStr a4) (PInt 3)) with false. cbv iota.
  intros [= <-]. exists a5.
  apply process_rows_appends in E as [ps E]. rewrite E.
  cbn [isLMU py_eq document].
  destruct (Py.text_eqb a5 (py "true"));
    match goal with
    | |- context [if ?c then _ else _] => destruct c
    end; eexists; split; reflexivity.
Qed.

Lemma main_title_first_witness :
  exists a5 rest,
    nth_error argv_lmu 5 = Some a5
    /\ [mkPar (py "DMU-Heading1") [mkRun (py "LIST OF MAP UNITS") Plain];
        mkPar (py "DMUUnit1")
              [mkRun (py "Qal" ++ [tab]) label_style;
               mkRun (py "Alluvium") nameage_style;
               mkRun (py "(Holocene)") Plain]]
       = mkPar (py "DMU-Heading1")
               [mkRun (if Py.text_eqb a5 (py "true")
                       then py "LIST OF MAP UNITS"
                       else py "DESCRIPTION OF MAP UNITS") Plain]
         :: rest.
Proof.
  apply (main_title_first argv_lmu [row_title; row_Qal]).
  vm_compute. reflexivity.
Defined.

(** * Properties of [GeMS_CreateDatabase_AGP2.py] *)

(** X15: the two copies of [eval_bool] agree on every parameter except the
    strings ['on'], ['On'] and ['hella'], which only the copy of
    [GeMS_AttributeByKeyValues_AGP2.py] takes as true; whatever the copy of
    [GeMS_CreateDatabase_AGP2.py] takes as true the other takes as true. *)
Theorem eval_bool_tools_agree (p : param) :
  AttributeByKeyValues.eval_bool p
  = CreateDatabase.eval_bool p
    || param_in p [PaStr (py "on"); PaStr (py "On"); PaStr (py "hella")].
Proof.
  unfold AttributeByKeyValues.eval_bool, CreateDatabase.eval_bool, param_in.
  destruct p as [|b|n|s]; cbn [existsb param_eq].
  - reflexivity.
  - destruct b; reflexivity.
  - destruct (n =? 1); reflexivity.
  - repeat match goal with
           | |- context [Py.text_eqb s ?x] =>
               destruct (Py.text_eqb s x); cbn [orb]; try reflexivity
           end.
Qed.

Lemma flat_map_single {A B : Type} (f : A -> B) (l : list A) :
  flat_map (fun x => [f x]) l = map f l.
Proof. induction l as [|x l IH]; simpl; [reflexivity|]. rewrite IH. reflexivity. Qed.

Lemma flat_map_none {A B : Type} (l : list A) :
  flat_map (fun _ : A => @nil B) l = [].
Proof. induction l as [|x l IH]; simpl; [reflexivity|exact IH]. Qed.

(** X16: [addMsgAndPrint] prints the message once and hands the lines of
    the message to the geoprocessor one by one, in order, as messages,
    warnings or errors by the severity, and hands over nothing for any other
    severity. The lines are the message cut at every line feed: there is at
    least one, none holds a line feed, and put together with line feeds they
    are the message. *)
Theorem addMsgAndPrint_lines (msg : text) (severity : Z) :
  exists lines,
    lines <> []
    /\ Forall (fun line => ~ In 10%N line) lines
    /\ Py.join [10%N] lines = msg
    /\ CreateDatabase.addMsgAndPrint msg severity
       = CreateDatabase.Print msg
         :: (if severity =? 0 then map CreateDatabase.AddMessage lines
             else if severity =? 1 then map CreateDatabase.AddWarning lines
             else if severity =? 2 then map CreateDatabase.AddError lines
             else []).
Proof.
  exists (Py.split msg [10%N]). split; [|split; [|split]].
  - unfold Py.split.
    destruct (split_aux_cons [10%N] msg 0%nat []) as [p [ps ->]].
    discriminate.
  - assert (H : Forall (fun p => ~ occurs [10%N] p) (Py.split msg [10%N]))
      by (apply split_free; discriminate).
    apply Forall_impl with (2 := H). intros line Hl Hin.
    apply in_split in Hin as [l1 [l2 ->]]. apply Hl. exists l1, l2.
    reflexivity.
  - apply split_join. discriminate.
  - unfold CreateDatabase.addMsgAndPrint. f_equal.
    destruct (severity =? 0); [apply flat_map_single|].
    destruct (severity =? 1); [apply flat_map_single|].
    destruct (severity =? 2); [apply flat_map_single|].
    apply flat_map_none.
Qed.

(** ** [rename_field] *)

Lemma param_eq_str (n0 : param) (s : text) :
  param_eq n0 (PaStr s) = true -> n0 = PaStr s.
Proof.
  destruct n0 as [|b|n|t]; simpl; try discriminate.
  intros H. apply text_eqb_eq in H. congruence.
Qed.

Lemma named_cases (start_name : text) (defs : list CreateDatabase.fdef) :
  (In [] defs /\ CreateDatabase.named start_name defs = Raise IndexError)
  \/ (~ In [] defs
      /\ CreateDatabase.named start_name defs
         = Ok (filter (has_name start_name) defs)).
Proof.
  induction defs as [|n defs IH]; simpl.
  - right. split; [tauto|reflexivity].
  - destruct n as [|n0 tl]; [left; split; [left|]; reflexivity|].
    destruct IH as [[Hin ->]|[Hnin ->]].
    + left. split; [right; exact Hin|reflexivity].
    + right. split; [|reflexivity]. intros [H|H]; [discriminate|tauto].
Qed.

Lemma filter_first {A : Type} (q : A -> bool) (l : list A) (x : A) (xs : list A) :
  filter q l = x :: xs ->
  exists pre post, l = pre ++ x :: post
                   /\ Forall (fun y => q y = false) pre /\ q x = true.
Proof.
  induction l as [|y l IH]; simpl; [discriminate|].
  destruct (q y) eqn:E.
  - intros [= -> <-]. exists [], l. repeat split; [constructor|exact E].
  - intros H. destruct (IH H) as [pre [post [-> [Hp Hx]]]].
    exists (y :: pre), post. repeat split; [constructor; assumption|exact Hx].
Qed.

Lemma param_eq_refl (a : param) : param_eq a a = true.
Proof.
  destruct a as [|b|n|s]; simpl;
    [reflexivity|destruct b; reflexivity|apply Z.eqb_refl|apply text_eqb_refl].
Qed.

Lemma fdef_eqb_refl (n : CreateDatabase.fdef) : CreateDatabase.fdef_eqb n n = true.
Proof.
  induction n as [|a n IH]; simpl; [reflexivity|].
  rewrite param_eq_refl. exact IH.
Qed.

Lemma index_of_first (start_name : text) (first : CreateDatabase.fdef)
      (pre post : list CreateDatabase.fdef) :
  has_name start_name first = true ->
  Forall (fun y => has_name start_name y = false) pre -> ~ In [] pre ->
  CreateDatabase.index_of first (pre ++ first :: post) = length pre.
Proof.
  intros Hf Hpre Hne. induction Hpre as [|y pre Hy Hpre IH]; simpl.
  - rewrite fdef_eqb_refl. reflexivity.
  - destruct (CreateDatabase.fdef_eqb y first) eqn:E.
    + exfalso. destruct y as [|y0 ytl]; [apply Hne; left; reflexivity|].
      destruct first as [|f0 ftl]; [discriminate|]. simpl in *.
      apply andb_true_iff in E as [E _].
      apply param_eq_str in Hf. subst f0. congruence.
    + f_equal. apply IH. intros H. apply Hne. right. exact H.
Qed.

Lemma set_name_at (end_name : text) (pre post : list CreateDatabase.fdef)
      (n0 : param) (tl : list param) :
  CreateDatabase.set_name (length pre) end_name (pre ++ (n0 :: tl) :: post)
  = Ok (pre ++ (PaStr end_name :: tl) :: post).
Proof.
  induction pre as [|y pre IH]; simpl; [reflexivity|].
  rewrite IH. reflexivity.
Qed.

(** X17: when [rename_field] returns, it has renamed the first field
    definition whose name is [start_name], and nothing else: the definitions
    before it (none of which has that name), the rest of the renamed
    definition and the definitions after it are as in [defs]. *)
Theorem rename_field_first_match (defs r : list CreateDatabase.fdef)
        (start_name end_name : text) :
  CreateDatabase.rename_field defs start_name end_name = Ok r ->
  exists pre tl post,
    defs = pre ++ (PaStr start_name :: tl) :: post
    /\ r = pre ++ (PaStr end_name :: tl) :: post
    /\ Forall (fun n => has_name start_name n = false) pre.
Proof.
  unfold CreateDatabase.rename_field.
  destruct (named_cases start_name defs) as [[Hin ->]|[Hnin ->]].
  - discriminate.
  - cbn [bind].
    destruct (filter (has_name start_name) defs) as [|first found] eqn:E;
      [discriminate|].
    destruct (filter_first _ _ _ _ E) as [pre [post [-> [Hpre Hf]]]].
    assert (Hne : ~ In [] pre).
    { intros H. apply Hnin. apply in_or_app. left. exact H. }
    rewrite (index_of_first start_name first pre post Hf Hpre Hne).
    destruct first as [|f0 tl]; [discriminate|].
    pose proof (param_eq_str _ _ Hf) as ->.
    rewrite set_name_at. intros [= <-].
    exists pre, tl, post. auto.
Qed.

Lemma rename_field_first_match_witness :
  exists pre tl post,
    [[PaStr (py "MapUnit"); PaStr (py "String"); PaStr (py "NoNulls"); PaInt 10];
     [PaStr (py "MapUnitPolys_ID"); PaStr (py "String"); PaStr (py "NoNulls");
      PaInt 50];
     [PaStr (py "MapUnitPolys_ID"); PaStr (py "String")]]
    = pre ++ (PaStr (py "MapUnitPolys_ID") :: tl) :: post
    /\ [[PaStr (py "MapUnit"); PaStr (py "String"); PaStr (py "NoNulls");
         PaInt 10];
        [PaStr (py "CSAMapUnitPolys_ID"); PaStr (py "String");
         PaStr (py "NoNulls"); PaInt 50];
        [PaStr (py "MapUnitPolys_ID"); PaStr (py "String")]]
       = pre ++ (PaStr (py "CSAMapUnitPolys_ID") :: tl) :: post
    /\ Forall (fun n => has_name (py "MapUnitPolys_ID") n = false) pre.
Proof.
  apply rename_field_first_match. vm_compute. reflexivity.
Defined.

(** X18: [rename_field] raises exactly when a field definition is empty or
    no field definition has the name [start_name], and what it raises is an
    [IndexError]. *)
Theorem rename_field_errors (defs : list CreateDatabase.fdef)
        (start_name end_name : text) :
  (forall e, CreateDatabase.rename_field defs start_name end_name = Raise e ->
             e = IndexError)
  /\ (CreateDatabase.rename_field defs start_name end_name = Raise IndexError
      <-> In [] defs \/ Forall (fun n => has_name start_name n = false) defs).
Proof.
  unfold CreateDatabase.rename_field.
  destruct (named_cases start_name defs) as [[Hin ->]|[Hnin ->]]; cbn [bind].
  - split; [intros e [= <-]; reflexivity|]. split; [auto|reflexivity].
  - destruct (filter (has_name start_name) defs) as [|first found] eqn:E.
    + split; [intros e [= <-]; reflexivity|]. split; [|reflexivity].
      intros _. right. apply Forall_forall. intros n Hn.
      destruct (has_name start_name n) eqn:En; [|reflexivity].
      assert (H : In n (filter (has_name start_name) defs))
        by (apply filter_In; auto).
      rewrite E in H. contradiction.
    + destruct (filter_first _ _ _ _ E) as [pre [post [-> [Hpre Hf]]]].
      assert (Hne : ~ In [] pre).
      { intros H. apply Hnin. apply in_or_app. left. exact H. }
      rewrite (index_of_first start_name first pre post Hf Hpre Hne).
      destruct first as [|f0 tl]; [discriminate|].
      rewrite set_name_at.
      split; [discriminate|]. split; [discriminate|].
      intros [H|H]; [contradiction|].
      apply Forall_app in H as [_ H]. apply Forall_inv in H. congruence.
Qed.

Lemma rename_field_errors_witness :
  CreateDatabase.rename_field
    [[PaStr (py "MapUnit"); PaStr (py "String")];
     [PaStr (py "Label"); PaStr (py "String")]]
    (py "MapUnitPolys_ID") (py "CSAMapUnitPolys_ID")
  = Raise IndexError.
Proof.
  apply (proj2 (rename_field_errors _ _ _)). right.
  repeat constructor.
Defined.

(** ** Cross sections, the name of the database, the optional elements *)

Lemma section_names_firstn (k : nat) :
  (k <= 26)%nat ->
  CreateDatabase.section_names (seq 1 k) = Ok (firstn k all_sections).
Proof.
  intros H.
  do 27 (destruct k as [|k]; [reflexivity|]).
  lia.
Qed.

Lemma all_sections_NoDup :
  NoDup (map fst all_sections) /\ NoDup (map snd all_sections).
Proof.
  split; vm_compute;
    repeat (constructor;
            [intros H; repeat (destruct H as [H|H]; [discriminate H|]);
             exact H|]);
    constructor.
Qed.

Lemma NoDup_firstn {A : Type} (k : nat) (l : list A) :
  NoDup l -> NoDup (firstn k l).
Proof.
  intros H. rewrite <- (firstn_skipn k l) in H.
  apply NoDup_app_remove_r in H. exact H.
Qed.

(** X19: the loop over the cross sections never runs off the alphabet:
    for every requested number it names as many sections as the number
    clamped to 0..26, and no two sections share a dataset name or a prefix
    of feature classes. *)
Theorem cross_sections_names (nCrossSections : Z) :
  exists l,
    CreateDatabase.cross_sections nCrossSections = Ok l
    /\ Z.of_nat (length l) = Z.max 0 (Z.min nCrossSections 26)
    /\ NoDup (map fst l) /\ NoDup (map snd l).
Proof.
  unfold CreateDatabase.cross_sections.
  set (k := Z.to_nat (CreateDatabase.clamp_sections nCrossSections)).
  assert (Hk : Z.of_nat k = Z.max 0 (Z.min nCrossSections 26)).
  { unfold k, CreateDatabase.clamp_sections.
    destruct (Z.gtb_spec nCrossSections 26);
      match goal with
      | |- context [?a <? 0] => destruct (Z.ltb_spec a 0)
      end; lia. }
  assert (Hle : (k <= 26)%nat) by lia.
  exists (firstn k all_sections). repeat split.
  - apply section_names_firstn. exact Hle.
  - rewrite length_firstn. change (length all_sections) with 26%nat. lia.
  - rewrite <- firstn_map. apply NoDup_firstn, all_sections_NoDup.
  - rewrite <- firstn_map. apply NoDup_firstn, all_sections_NoDup.
Qed.

Lemma ends_with_app (s suffix : text) : ends_with (s ++ suffix) suffix = true.
Proof. unfold ends_with. rewrite rev_app_distr. apply starts_with_self_app. Qed.

(** X20: the name of the database always ends in ['.gdb'] after lines
    367-369, and a name that went through them once is left as it is by a
    second pass. *)
Theorem gdb_name_suffix (db_name : text) :
  ends_with (CreateDatabase.gdb_name db_name) (py ".gdb") = true
  /\ CreateDatabase.gdb_name (CreateDatabase.gdb_name db_name)
     = CreateDatabase.gdb_name db_name.
Proof.
  assert (H : ends_with (CreateDatabase.gdb_name db_name) (py ".gdb") = true).
  { unfold CreateDatabase.gdb_name.
    destruct (ends_with db_name (py ".gdb")) eqn:E; simpl;
      [exact E|apply ends_with_app]. }
  split; [exact H|].
  unfold CreateDatabase.gdb_name at 1. rewrite H. reflexivity.
Qed.

Lemma re_split_aux_clean (s : text) :
  forall in_match cur,
    separator_free cur = true ->
    Forall (fun piece => separator_free piece = true)
           (CreateDatabase.re_split_aux in_match cur s).
Proof.
  assert (Hrev : forall cur, separator_free cur = true ->
                             separator_free (rev cur) = true).
  { intros cur H. apply forallb_forall. intros c Hc.
    apply in_rev in Hc. revert c Hc. apply forallb_forall. exact H. }
  induction s as [|c s IH]; intros in_match cur Hcur; simpl.
  - repeat constructor. apply Hrev. exact Hcur.
  - destruct (in_match && Py.isspace c); [apply IH; exact Hcur|].
    destruct (CreateDatabase.is_separator c) eqn:E.
    + constructor; [apply Hrev; exact Hcur|]. apply IH. reflexivity.
    + apply IH. unfold separator_free. simpl. rewrite E. exact Hcur.
Qed.

Lemma re_split_aux_whole (s : text) :
  forall cur,
    separator_free s = true ->
    CreateDatabase.re_split_aux false cur s = [rev cur ++ s].
Proof.
  induction s as [|c s IH]; intros cur H; simpl.
  - rewrite app_nil_r. reflexivity.
  - unfold separator_free in H. simpl in H.
    apply andb_true_iff in H as [Hc Hs]. apply negb_true_iff in Hc.
    rewrite Hc. rewrite IH by exact Hs. simpl. rewrite <- app_assoc.
    reflexivity.
Qed.

(** X21: the optional elements read from a string: no element holds a
    character the pattern splits at (a hyphen, semicolon, comma, full stop
    or whitespace); ['#'] and the empty string give no element; any other
    string without such a character is the one element. *)
Theorem optional_elements_pieces (p3 : text) :
  Forall (fun piece => separator_free piece = true)
         (CreateDatabase.optional_elements p3)
  /\ (separator_free p3 = true ->
      CreateDatabase.optional_elements p3
      = if Py.text_eqb p3 (py "#") || Py.text_eqb p3 [] then [] else [p3]).
Proof.
  unfold CreateDatabase.optional_elements. split.
  - destruct (Py.text_eqb p3 (py "#") || Py.text_eqb p3 []); [constructor|].
    apply re_split_aux_clean. reflexivity.
  - intros H.
    destruct (Py.text_eqb p3 (py "#") || Py.text_eqb p3 []); [reflexivity|].
    apply re_split_aux_whole. exact H.
Qed.

Lemma optional_elements_pieces_witness :
  CreateDatabase.optional_elements (py "OrientationPoints")
  = [py "OrientationPoints"].
Proof.
  apply (proj2 (optional_elements_pieces (py "OrientationPoints"))).
  reflexivity.
Defined.

(** * Properties of [GeMS_AttributeByKeyValues_AGP2.py] *)

(** ** The tables of the key-value file *)

Lemma name_indices_skip (ls rest : list text) :
  Forall (fun l => AttributeByKeyValues.is_name l = false) ls ->
  forall i,
    AttributeByKeyValues.name_indices i (ls ++ rest)
    = AttributeByKeyValues.name_indices (i + length ls) rest.
Proof.
  induction 1 as [|l ls Hl Hls IH]; intros i; simpl.
  - rewrite Nat.add_0_r. reflexivity.
  - rewrite Hl, IH. f_equal. lia.
Qed.

Lemma chunk_spec (key_lines : list text) :
  key_lines = fst (chunk key_lines) ++ flat_map block_lines (snd (chunk key_lines))
  /\ Forall (fun l => AttributeByKeyValues.is_name l = false)
            (fst (chunk key_lines))
  /\ Forall (fun b => AttributeByKeyValues.is_name (fst b) = true
                      /\ Forall (fun l => AttributeByKeyValues.is_name l = false)
                                (snd b))
            (snd (chunk key_lines)).
Proof.
  induction key_lines as [|line rest [IH1 [IH2 IH3]]]; simpl.
  - repeat split; constructor.
  - destruct (chunk rest) as [under blocks]. cbn [fst snd] in *.
    destruct (AttributeByKeyValues.is_name line) eqn:E; cbn [fst snd].
    + repeat split.
      * cbn [flat_map block_lines fst snd app]. f_equal. exact IH1.
      * constructor.
      * constructor; [split; assumption|assumption].
    + repeat split.
      * rewrite <- app_comm_cons. f_equal. exact IH1.
      * constructor; assumption.
      * assumption.
Qed.

(** The first index still to do after a table. *)
Lemma next_index (i : nat) (blocks : list block) (n : nat) :
  Forall (fun b => AttributeByKeyValues.is_name (fst b) = true) blocks ->
  (blocks = [] -> n = i) ->
  exists rest,
    AttributeByKeyValues.name_indices i (flat_map block_lines blocks) ++ [n]
    = i :: rest.
Proof.
  intros H Hn. destruct blocks as [|b blocks].
  - exists []. rewrite Hn; reflexivity.
  - apply Forall_inv in H.
    cbn [flat_map block_lines AttributeByKeyValues.name_indices app].
    rewrite H. eexists. reflexivity.
Qed.

Lemma lslice_middle {A : Type} (front ls rest : list A) (x : A) (a b : nat) :
  a = (length front + 1)%nat -> b = (a + length ls)%nat ->
  lslice (front ++ x :: ls ++ rest) a b = ls.
Proof.
  intros -> ->. unfold lslice.
  replace (length front + 1 + length ls - (length front + 1))%nat
    with (length ls) by lia.
  replace (front ++ x :: ls ++ rest) with ((front ++ [x]) ++ ls ++ rest)
    by (rewrite <- app_assoc; reflexivity).
  replace (length front + 1)%nat with (length (front ++ [x]))
    by (rewrite length_app; reflexivity).
  rewrite skipn_app, skipn_all, Nat.sub_diag. simpl.
  rewrite firstn_app, firstn_all, Nat.sub_diag. simpl. apply app_nil_r.
Qed.

Lemma read_tables_blocks (blocks : list block) :
  Forall (fun b => AttributeByKeyValues.is_name (fst b) = true
                   /\ Forall (fun l => AttributeByKeyValues.is_name l = false)
                             (snd b))
         blocks ->
  forall front acc,
    AttributeByKeyValues.read_tables
      (front ++ flat_map block_lines blocks)
      (AttributeByKeyValues.name_indices (length front)
                                         (flat_map block_lines blocks)
       ++ [length (front ++ flat_map block_lines blocks)])
      acc
    = add_blocks acc blocks.
Proof.
  induction 1 as [|[name ls] blocks [Hname Hls] Hwf IH]; intros front acc.
  - reflexivity.
  - cbn [flat_map block_lines fst snd AttributeByKeyValues.name_indices app].
    simpl in Hname. rewrite Hname.
    rewrite name_indices_skip by assumption.
    set (R := flat_map block_lines blocks).
    set (K := front ++ name :: ls ++ R).
    assert (HK : K = (front ++ name :: ls) ++ R)
      by (unfold K; rewrite <- app_assoc; reflexivity).
    assert (Hlen : length K = (S (length front) + length ls + length R)%nat)
      by (unfold K; rewrite length_app; simpl; rewrite length_app; lia).
    destruct (next_index (S (length front) + length ls) blocks (length K))
      as [rest Hrest].
    { eapply Forall_impl; [|exact Hwf]. simpl. tauto. }
    { intros ->. rewrite Hlen. unfold R. simpl. lia. }
    fold R in Hrest.
    rewrite <- app_comm_cons, Hrest. cbn [AttributeByKeyValues.read_tables].
    assert (Hnth : nth_error K (length front) = Some name).
    { unfold K. rewrite nth_error_app2 by lia. rewrite Nat.sub_diag.
      reflexivity. }
    rewrite Hnth. unfold K at 1.
    rewrite (lslice_middle front ls R name) by lia.
    destruct ls as [|fields vals]; [reflexivity|].
    cbn [add_blocks add_block bind fst snd].
    specialize (IH (front ++ name :: fields :: vals)). fold R in IH.
    rewrite <- HK in IH.
    replace (length (front ++ name :: fields :: vals))
      with (S (length front) + length (fields :: vals))%nat in IH
      by (rewrite length_app; simpl; lia).
    rewrite Hrest in IH. apply IH.
Qed.

(** X22: the loop over [fc_indices] reads the cleaned lines as tables: a
    line without ['|'] starts a table, the lines up to the next such line
    are the lines of that table (the first the names of its fields, the
    others a key and its values), and the lines before the first table
    are not used. *)
Theorem parse_reads_blocks (lines : list text) :
  AttributeByKeyValues.parse lines
  = add_blocks (AttributeByKeyValues.mkTables [] [])
               (snd (chunk (AttributeByKeyValues.clean_lines lines))).
Proof.
  unfold AttributeByKeyValues.parse, AttributeByKeyValues.fc_indices.
  destruct (chunk_spec (AttributeByKeyValues.clean_lines lines))
    as [Hk [Hpre Hwf]].
  set (pre := fst (chunk (AttributeByKeyValues.clean_lines lines))) in *.
  set (blocks := snd (chunk (AttributeByKeyValues.clean_lines lines))) in *.
  rewrite Hk. rewrite name_indices_skip by exact Hpre.
  apply (read_tables_blocks blocks Hwf pre).
Qed.

Lemma add_blocks_errors (blocks : list block) :
  forall acc,
    (forall e, add_blocks acc blocks = Raise e -> e = IndexError)
    /\ (add_blocks acc blocks = Raise IndexError
        <-> Exists (fun b => snd b = []) blocks).
Proof.
  induction blocks as [|b blocks IH]; intros acc; simpl.
  - split; [discriminate|]. split; [discriminate|]. intros H. inversion H.
  - unfold add_block. destruct (snd b) as [|fields vals] eqn:E; cbn [bind].
    + split; [intros e [= <-]; reflexivity|].
      split; [intros _; left; exact E|reflexivity].
    + destruct (IH (AttributeByKeyValues.mkTables
                      (AttributeByKeyValues.dict_set
                         (fst b) (Py.split fields AttributeByKeyValues.bar)
                         (AttributeByKeyValues.update_fields_dict acc))
                      (AttributeByKeyValues.dict_set
                         (fst b) (AttributeByKeyValues.val_dict_of vals)
                         (AttributeByKeyValues.fc_val_dict acc))))
        as [H1 [H2 H3]].
      split; [exact H1|]. split.
      * intros H. right. apply H2. exact H.
      * intros H. apply H3. inversion H as [? ? Hb|? ? Hb]; subst;
          [congruence|exact Hb].
Qed.

(** X23: reading the key-value file raises exactly when a table has no
    line under it, that is when a line that names a table is the last line
    or is followed at once by another line that names a table; what it
    raises is the [IndexError] of [fc_vals[0]]. *)
Theorem parse_errors (lines : list text) :
  (forall e, AttributeByKeyValues.parse lines = Raise e -> e = IndexError)
  /\ (AttributeByKeyValues.parse lines = Raise IndexError
      <-> Exists (fun b => snd b = [])
                 (snd (chunk (AttributeByKeyValues.clean_lines lines)))).
Proof.
  unfold AttributeByKeyValues.parse, AttributeByKeyValues.fc_indices.
  destruct (chunk_spec (AttributeByKeyValues.clean_lines lines))
    as [Hk [Hpre Hwf]].
  set (pre := fst (chunk (AttributeByKeyValues.clean_lines lines))) in *.
  set (blocks := snd (chunk (AttributeByKeyValues.clean_lines lines))) in *.
  rewrite Hk. rewrite name_indices_skip by exact Hpre.
  rewrite (read_tables_blocks blocks Hwf pre).
  apply add_blocks_errors.
Qed.

Lemma parse_errors_witness :
  AttributeByKeyValues.parse
    [py "# key values"; py "ContactsAndFaults"; py "GeologicLines";
     py "Type | Symbol"; py "fault | 02.01.01"]
  = Raise IndexError.
Proof.
  apply (proj2 (parse_errors _)). left. reflexivity.
Defined.

(** ** The shape of the dictionaries *)

Lemma dict_set_Forall {V : Type} (P : V -> Prop) (k : text) (v : V)
      (d : AttributeByKeyValues.dict V) :
  P v -> Forall (fun kv => P (snd kv)) d ->
  Forall (fun kv => P (snd kv)) (AttributeByKeyValues.dict_set k v d).
Proof.
  intros Hv. induction 1 as [|[k' v'] d Hkv Hd IH]; simpl.
  - repeat constructor. exact Hv.
  - destruct (Py.text_eqb k' k); constructor; auto.
Qed.

Lemma dict_set_keys {V W : Type} (k : text) (v : V) (w : W)
      (d : AttributeByKeyValues.dict V) (d' : AttributeByKeyValues.dict W) :
  map fst d = map fst d' ->
  map fst (AttributeByKeyValues.dict_set k v d)
  = map fst (AttributeByKeyValues.dict_set k w d').
Proof.
  revert d'. induction d as [|[k1 v1] d IH]; intros [|[k2 w2] d'] H;
    try discriminate; simpl in *.
  - reflexivity.
  - injection H as -> H. destruct (Py.text_eqb k2 k); simpl.
    + rewrite H. reflexivity.
    + rewrite (IH d' H). reflexivity.
Qed.

Lemma not_name_terms (l : text) :
  AttributeByKeyValues.is_name l = false ->
  (2 <= length (Py.split l AttributeByKeyValues.bar))%nat.
Proof.
  unfold AttributeByKeyValues.is_name, Py.split. intros H.
  apply Nat.eqb_neq in H.
  destruct (split_aux_cons AttributeByKeyValues.bar l 0 []) as [p [ps E]].
  rewrite E in *. simpl in *. lia.
Qed.

Lemma val_dict_of_values (vals : list text) :
  Forall (fun l => AttributeByKeyValues.is_name l = false) vals ->
  Forall (fun kv => (1 <= length (snd kv))%nat)
         (AttributeByKeyValues.val_dict_of vals).
Proof.
  unfold AttributeByKeyValues.val_dict_of.
  assert (H : forall d,
             Forall (fun kv : text * list text => (1 <= length (snd kv))%nat) d ->
             Forall (fun l => AttributeByKeyValues.is_name l = false) vals ->
             Forall (fun kv => (1 <= length (snd kv))%nat)
                    (fold_left
                       (fun d n =>
                          AttributeByKeyValues.dict_set
                            (hd [] (Py.split n AttributeByKeyValues.bar))
                            (tl (Py.split n AttributeByKeyValues.bar)) d)
                       vals d)).
  { induction vals as [|n vals IH]; intros d Hd Hv; simpl; [exact Hd|].
    apply IH; [|apply Forall_inv_tail in Hv; exact Hv].
    apply (dict_set_Forall (fun v => (1 <= length v)%nat)); [|exact Hd].
    apply Forall_inv in Hv. apply not_name_terms in Hv.
    destruct (Py.split n AttributeByKeyValues.bar) as [|t ts];
      simpl in *; lia. }
  apply H. constructor.
Qed.

Lemma add_blocks_shape (blocks : list block) :
  Forall (fun b => AttributeByKeyValues.is_name (fst b) = true
                   /\ Forall (fun l => AttributeByKeyValues.is_name l = false)
                             (snd b))
         blocks ->
  forall acc t,
    map fst (AttributeByKeyValues.update_fields_dict acc)
    = map fst (AttributeByKeyValues.fc_val_dict acc) ->
    Forall (fun kv => (2 <= length (snd kv))%nat)
           (AttributeByKeyValues.update_fields_dict acc) ->
    Forall (fun kv => Forall (fun r => (1 <= length (snd r))%nat) (snd kv))
           (AttributeByKeyValues.fc_val_dict acc) ->
    add_blocks acc blocks = Ok t ->
    map fst (AttributeByKeyValues.update_fields_dict t)
    = map fst (AttributeByKeyValues.fc_val_dict t)
    /\ Forall (fun kv => (2 <= length (snd kv))%nat)
              (AttributeByKeyValues.update_fields_dict t)
    /\ Forall (fun kv => Forall (fun r => (1 <= length (snd r))%nat) (snd kv))
              (AttributeByKeyValues.fc_val_dict t).
Proof.
  induction 1 as [|b blocks [Hn Hls] Hwf IH]; intros acc t Hk Hf Hv; simpl.
  - intros [= <-]. auto.
  - unfold add_block. destruct (snd b) as [|fields vals]; [discriminate|].
    cbn [bind]. apply IH; cbn [AttributeByKeyValues.update_fields_dict
                                 AttributeByKeyValues.fc_val_dict].
    + apply dict_set_keys. exact Hk.
    + apply (dict_set_Forall (fun v => (2 <= length v)%nat)); [|exact Hf].
      apply not_name_terms. apply Forall_inv in Hls. exact Hls.
    + apply (dict_set_Forall
               (fun v => Forall (fun r : text * list text =>
                                   (1 <= length (snd r))%nat) v));
        [|exact Hv].
      apply val_dict_of_values. apply Forall_inv_tail in Hls. exact Hls.
Qed.

(** X24: the two dictionaries read from a key-value file have the same
    tables in the same order, so [update_fields_dict[fc]] is there for every
    [fc] of [fc_val_dict]; every table has at least two field names (the
    independent field and one to fill), and every key at least one value. *)
Theorem parse_shape (lines : list text) (t : AttributeByKeyValues.tables) :
  AttributeByKeyValues.parse lines = Ok t ->
  map fst (AttributeByKeyValues.update_fields_dict t)
  = map fst (AttributeByKeyValues.fc_val_dict t)
  /\ Forall (fun kv => (2 <= length (snd kv))%nat)
            (AttributeByKeyValues.update_fields_dict t)
  /\ Forall (fun kv => Forall (fun r => (1 <= length (snd r))%nat) (snd kv))
            (AttributeByKeyValues.fc_val_dict t).
Proof.
  unfold AttributeByKeyValues.parse, AttributeByKeyValues.fc_indices.
  destruct (chunk_spec (AttributeByKeyValues.clean_lines lines))
    as [Hk [Hpre Hwf]].
  set (pre := fst (chunk (AttributeByKeyValues.clean_lines lines))) in *.
  set (blocks := snd (chunk (AttributeByKeyValues.clean_lines lines))) in *.
  rewrite Hk. rewrite name_indices_skip by exact Hpre.
  rewrite (read_tables_blocks blocks Hwf pre).
  apply (add_blocks_shape blocks Hwf); constructor.
Qed.

Lemma parse_shape_witness :
  map fst [(py "ContactsAndFaults", [py "Type"; py "Symbol"])]
  = map fst [(py "ContactsAndFaults",
              [(py "fault", [py "02.01.01"]); (py "contact", [py "01.01.01"])])]
  /\ Forall (fun kv : text * list text => (2 <= length (snd kv))%nat)
            [(py "ContactsAndFaults", [py "Type"; py "Symbol"])]
  /\ Forall (fun kv : text * AttributeByKeyValues.dict (list text) =>
               Forall (fun r => (1 <= length (snd r))%nat) (snd kv))
            [(py "ContactsAndFaults",
              [(py "fault", [py "02.01.01"]);
               (py "contact", [py "01.01.01"])])].
Proof.
  apply (parse_shape
           [py "# key values"; py "ContactsAndFaults" ++ [10%N];
            py "Type | Symbol" ++ [10%N]; [10%N];
            py "fault | 02.01.01" ++ [10%N]; py "contact|01.01.01"]
           (AttributeByKeyValues.mkTables _ _)).
  vm_compute. reflexivity.
Defined.

(** ** The update of a row *)

Lemma write_vals_keep (update_vals : list text) :
  forall n row row',
    AttributeByKeyValues.write_vals false update_vals n row = inl row' ->
    row' = row.
Proof.
  induction update_vals as [|k rest IH]; intros n row row'; simpl.
  - intros [= <-]. reflexivity.
  - destruct (nth_error row (n + 1)) as [[cell|]|]; try discriminate.
    apply IH.
Qed.

(** X25: without [forceCalc] no cell is ever written: the test
    [row[n+1].strip() is None] is false for every string, so a row whose
    update goes through is handed to [updateRow] as it was read. *)
Theorem update_row_keeps_row (update_val_dict : AttributeByKeyValues.dict (list text))
        (row row' : list (option text)) :
  AttributeByKeyValues.update_row false update_val_dict row = inl row' ->
  row' = row.
Proof.
  unfold AttributeByKeyValues.update_row.
  destruct row as [|[key|] cells]; try discriminate.
  destruct (AttributeByKeyValues.dict_get (strip key) update_val_dict)
    as [update_vals|]; [|discriminate].
  apply write_vals_keep.
Qed.

Lemma update_row_keeps_row_witness :
  [Some (py "fault"); Some []; Some (py " ")]
  = [Some (py "fault"); Some []; Some (py " ")].
Proof.
  apply (update_row_keeps_row
           [(py "fault", [py "02.01.01"; py "certain"])]).
  vm_compute. reflexivity.
Defined.

Lemma set_cell_length (i : nat) (v : option text) (row : list (option text)) :
  length (AttributeByKeyValues.set_cell i v row) = length row.
Proof.
  revert i. induction row as [|c row IH]; intros [|i]; simpl; auto.
Qed.

Lemma set_cell_app (pre rest : list (option text)) (c v : option text) :
  AttributeByKeyValues.set_cell (length pre) v (pre ++ c :: rest)
  = pre ++ v :: rest.
Proof. induction pre as [|x pre IH]; simpl; [reflexivity|]. rewrite IH. reflexivity. Qed.

Lemma write_vals_force (update_vals : list text) :
  forall n pre mid post,
    length pre = (n + 1)%nat -> length mid = length update_vals ->
    AttributeByKeyValues.write_vals true update_vals n (pre ++ mid ++ post)
    = inl (pre ++ map Some update_vals ++ post).
Proof.
  induction update_vals as [|k rest IH]; intros n pre mid post Hpre Hmid.
  - destruct mid; [reflexivity|discriminate].
  - destruct mid as [|c mid]; [discriminate|]. injection Hmid as Hmid.
    cbn [AttributeByKeyValues.write_vals].
    rewrite <- Hpre, <- app_comm_cons.
    rewrite nth_error_app2, Nat.sub_diag by lia. cbn [nth_error].
    rewrite set_cell_app.
    replace (pre ++ Some k :: mid ++ post)
      with ((pre ++ [Some k]) ++ mid ++ post)
      by (rewrite <- app_assoc; reflexivity).
    rewrite (IH (S n)); [|rewrite length_app; simpl; lia|exact Hmid].
    rewrite <- app_assoc. reflexivity.
Qed.

Lemma write_vals_short (update_vals : list text) :
  forall n row,
    (length row <= n + length update_vals)%nat ->
    AttributeByKeyValues.write_vals true update_vals n row = inr AttributeByKeyValues.RIndexError
    \/ update_vals = [].
Proof.
  induction update_vals as [|k rest IH]; intros n row H; [right; reflexivity|].
  left. simpl in *.
  destruct (nth_error row (n + 1)) as [c|] eqn:E; [|reflexivity].
  destruct (IH (S n) (AttributeByKeyValues.set_cell (n + 1) (Some k) row))
    as [Hr| ->]; [rewrite set_cell_length; lia|exact Hr|].
  assert (n + 1 < length row)%nat
    by (apply nth_error_Some; congruence).
  simpl in H. lia.
Qed.

(** X26: with [forceCalc] the values of the key found in the first cell
    (stripped) replace the cells after it, one by one, whatever was there:
    the first cell and the cells beyond the values stay; a row with fewer
    cells than one more than the values stops with an [IndexError]; a key
    that is not in the dictionary is a [KeyError]. *)
Theorem update_row_forced (update_val_dict : AttributeByKeyValues.dict (list text))
        (key : text) (cells : list (option text)) :
  match AttributeByKeyValues.dict_get (strip key) update_val_dict with
  | None =>
      AttributeByKeyValues.update_row true update_val_dict (Some key :: cells)
      = inr AttributeByKeyValues.RKeyError
  | Some update_vals =>
      ((length update_vals <= length cells)%nat ->
       AttributeByKeyValues.update_row true update_val_dict (Some key :: cells)
       = inl (Some key :: map Some update_vals
              ++ skipn (length update_vals) cells))
      /\ ((length cells < length update_vals)%nat ->
          AttributeByKeyValues.update_row true update_val_dict (Some key :: cells)
          = inr AttributeByKeyValues.RIndexError)
  end.
Proof.
  unfold AttributeByKeyValues.update_row.
  destruct (AttributeByKeyValues.dict_get (strip key) update_val_dict)
    as [update_vals|]; [|reflexivity].
  split; intros H.
  - rewrite <- (firstn_skipn (length update_vals) cells) at 1.
    apply (write_vals_force update_vals 0 [Some key]
             (firstn (length update_vals) cells)
             (skipn (length update_vals) cells));
      [reflexivity|].
    rewrite length_firstn. lia.
  - destruct (write_vals_short update_vals 0 (Some key :: cells))
      as [Hr| ->]; [simpl; lia|exact Hr|simpl in H; lia].
Qed.

Lemma update_row_forced_witness :
  AttributeByKeyValues.update_row
    true [(py "fault", [py "02.01.01"; py "certain"])]
    [Some (py " fault "); None; Some (py "old"); Some (py "note")]
  = inl [Some (py " fault "); Some (py "02.01.01"); Some (py "certain");
         Some (py "note")]
  /\ AttributeByKeyValues.update_row
       true [(py "fault", [py "02.01.01"; py "certain"])]
       [Some (py "fault"); None]
     = inr AttributeByKeyValues.RIndexError.
Proof.
  pose proof (update_row_forced
                [(py "fault", [py "02.01.01"; py "certain"])]
                (py " fault ")
                [None; Some (py "old"); Some (py "note")]) as H1.
  pose proof (update_row_forced
                [(py "fault", [py "02.01.01"; py "certain"])]
                (py "fault") [None]) as H2.
  split.
  - apply (proj1 H1). simpl. lia.
  - apply (proj2 H2). simpl. lia.
Defined.

(** * Properties of [GeMS_RebuildMapUnitPolys_AGP2.py] *)

Lemma decimal_range (digit_zeros : list N) (c : char) (d : Z) :
  RebuildMapUnitPolys.decimal digit_zeros c = Some d -> 0 <= d <= 9.
Proof.
  unfold RebuildMapUnitPolys.decimal.
  destruct (find (fun z => N.leb z c && N.ltb c (z + 10)) digit_zeros)
    as [z|] eqn:E; [|discriminate].
  apply find_some in E as [_ E]. apply andb_true_iff in E as [E1 E2].
  apply N.leb_le in E1. apply N.ltb_lt in E2. intros [= <-]. lia.
Qed.

Lemma int_of_digit_run_nonneg (digit_zeros : list N) (rs : text) :
  0 <= RebuildMapUnitPolys.int_of
         (RebuildMapUnitPolys.digit_run digit_zeros rs).
Proof.
  induction rs as [|c rs IH]; [simpl; lia|].
  cbn [RebuildMapUnitPolys.digit_run].
  destruct (RebuildMapUnitPolys.decimal digit_zeros c) as [d|] eqn:E;
    cbn [RebuildMapUnitPolys.int_of]; [|lia].
  apply decimal_range in E. lia.
Qed.

Lemma get_trailing_number_nonneg (digit_zeros : list N) (s : text) :
  0 <= RebuildMapUnitPolys.get_trailing_number digit_zeros s.
Proof.
  unfold RebuildMapUnitPolys.get_trailing_number.
  destruct (RebuildMapUnitPolys.digit_run digit_zeros (rev s)) eqn:E.
  - destruct (rev s) as [|c rs]; [lia|].
    destruct (N.eqb c 10); [apply int_of_digit_run_nonneg|lia].
  - rewrite <- E. apply int_of_digit_run_nonneg.
Qed.

Lemma max_trailing_fold (digit_zeros : list N) (pfcs : list text) :
  forall m0,
    let m := fold_left
               (fun maxN pfc =>
                  let n := RebuildMapUnitPolys.get_trailing_number
                             digit_zeros pfc in
                  if n >? maxN then n else maxN)
               pfcs m0 in
    m0 <= m
    /\ (forall pfc, In pfc pfcs ->
                    RebuildMapUnitPolys.get_trailing_number digit_zeros pfc <= m)
    /\ (m = m0
        \/ exists pfc, In pfc pfcs
                       /\ RebuildMapUnitPolys.get_trailing_number
                            digit_zeros pfc = m).
Proof.
  induction pfcs as [|p pfcs IH]; intros m0; cbv zeta in *; cbn [fold_left].
  - repeat split; [lia|contradiction|left; reflexivity].
  - set (n := RebuildMapUnitPolys.get_trailing_number digit_zeros p).
    destruct (Z.gtb_spec n m0) as [Hgt|Hle];
      [destruct (IH n) as [H1 [H2 H3]]|destruct (IH m0) as [H1 [H2 H3]]].
    + repeat split; [lia| |].
      * intros pfc [<-|Hin]; [exact H1|apply H2; exact Hin].
      * destruct H3 as [H3|[pfc [Hin H3]]]; right;
          [exists p; split; [left; reflexivity|fold n; lia]
          |exists pfc; split; [right; exact Hin|exact H3]].
    + repeat split; [lia| |].
      * intros pfc [<-|Hin]; [fold n; lia|apply H2; exact Hin].
      * destruct H3 as [H3|[pfc [Hin H3]]];
          [left; exact H3
          |right; exists pfc; split; [right; exact Hin|exact H3]].
Qed.

(** X27: the number given to the saved copy of the polygons, [maxN + 1], is
    at least 1 and larger than the trailing number of every feature class
    listed; [maxN] is 0 or the trailing number of one of them. *)
Theorem copy_number_unused (digit_zeros : list N) (pfcs : list text) :
  1 <= RebuildMapUnitPolys.max_trailing digit_zeros pfcs + 1
  /\ (forall pfc, In pfc pfcs ->
                  RebuildMapUnitPolys.get_trailing_number digit_zeros pfc
                  < RebuildMapUnitPolys.max_trailing digit_zeros pfcs + 1)
  /\ (RebuildMapUnitPolys.max_trailing digit_zeros pfcs = 0
      \/ exists pfc, In pfc pfcs
                     /\ RebuildMapUnitPolys.get_trailing_number digit_zeros pfc
                        = RebuildMapUnitPolys.max_trailing digit_zeros pfcs).
Proof.
  destruct (max_trailing_fold digit_zeros pfcs 0) as [H1 [H2 H3]].
  unfold RebuildMapUnitPolys.max_trailing. cbv zeta in *. repeat split.
  - lia.
  - intros pfc Hin. apply H2 in Hin. lia.
  - exact H3.
Qed.

Lemma copy_number_unused_witness :
  RebuildMapUnitPolys.get_trailing_number [48%N] (py "MapUnitPolys12")
  < RebuildMapUnitPolys.max_trailing
      [48%N] [py "MapUnitPolys"; py "MapUnitPolys12"; py "MapUnitPolys3"] + 1.
Proof.
  apply (proj1 (proj2 (copy_number_unused [48%N] _))).
  right. left. reflexivity.
Defined.
